(** * IDdataset: sequential identifiers for the records of a JSON array

    A shallow embedding of [Private/IDdataset.py] and the properties of
    its three components: the Tagger ([add_ids_to_json]), the Batch
    Runner ([process_folder]) and the interactive Shell ([main]).

    Modelling conventions.
    - A Python [str] is a list of characters ([str]); the only string
      tests of the program compare against ASCII literals, so bytes are
      enough. [str.strip] and [str.lower] are modelled on ASCII text
      ([is_ascii]); the statements about what the operator types assume
      it.
    - A parsed JSON document is a value of [json]; a Python [dict] keeps
      its insertion order, so it is an association list.
    - The file system, the console and the exceptions are explicit: a
      command is a function from a [world] to an outcome and a new
      [world]. The exceptions are those of the file system, of [json],
      of the end of the input, and of [print] on a console that cannot
      encode a line ([Console]); a statement that names no console is
      about the program on [full_console], which shows every line.
    - A path is resolved on its text ([key]); the kernel resolves [..]
      in the tree. The two agree on the paths without [..]
      ([dotdot_free]), which the statements about [os.makedirs],
      [os.listdir] and the nodes a run creates assume, and on which the
      Shell calls the Tagger and the Batch Runner.
    - [json.load] and [json.dump] belong to the Python library; they are
      parameters of the development. *)

From Stdlib Require Import ZArith Ascii Floats.SpecFloat.
From Stdlib Require String.
From stdpp Require Import base tactics option list gmap strings.

Set Warnings "-register-all".
Local Open Scope Z_scope.

(** ** Python strings *)

Abbreviation str := (list ascii).

(** A literal of the source, as a [str]. *)
Definition lit (s : string) : str := String.list_ascii_of_string s.

Definition slash : ascii := "/"%char.
Definition dot : ascii := "."%char.

(** ** JSON values, as [json.load] builds them *)

Inductive json : Type :=
  | JNull
  | JBool (b : bool)
  | JInt (n : Z)
  | JFloat (f : spec_float)
  | JStr (s : str)
  | JList (items : list json)
  | JDict (fields : list (str * json)).

(** [isinstance(data, list)] *)
Definition is_list (data : json) : bool :=
  match data with JList _ => true | _ => false end.

(** [d.get(key)]: the value stored under [key]. *)
Fixpoint dict_get (key : str) (d : list (str * json)) : option json :=
  match d with
  | [] => None
  | (k, v) :: rest => if decide (k = key) then Some v else dict_get key rest
  end.

(** [d[key] = value]: an existing key keeps its place and takes the new
    value, a new key goes to the end. *)
Fixpoint dict_set (key : str) (value : json) (d : list (str * json))
  : list (str * json) :=
  match d with
  | [] => [(key, value)]
  | (k, v) :: rest =>
      if decide (k = key) then (k, value) :: rest
      else (k, v) :: dict_set key value rest
  end.

(** [del d[key]] where present; used to compare two dicts apart from
    one field. *)
Fixpoint dict_remove (key : str) (d : list (str * json)) : list (str * json) :=
  match d with
  | [] => []
  | (k, v) :: rest =>
      if decide (k = key) then rest else (k, v) :: dict_remove key rest
  end.

(** ** The tagging loop (lines 40-42)

    [for index, entry in enumerate(data_list):
         if isinstance(entry, dict): entry['id'] = index + 1]

    [json.load] builds every element afresh, so no two elements of
    [data_list] share a dict and the in-place update of one entry is the
    replacement of that entry in the list. *)

Definition tag_entry (index : nat) (entry : json) : json :=
  match entry with
  | JDict d => JDict (dict_set (lit "id") (JInt (Z.of_nat index + 1)) d)
  | _ => entry
  end.

Definition add_ids (data_list : list json) : list json :=
  imap tag_entry data_list.

(** ** String methods and [os.path] (POSIX flavour)

    These are Python library functions; each definition follows the
    library's own code, quoted above it. *)

(** [s.rfind(c)]: index of the last [c], [-1] when there is none. *)
Fixpoint rfind (c : ascii) (s : str) : Z :=
  match s with
  | [] => -1
  | x :: rest =>
      let j := rfind c rest in
      if 0 <=? j then j + 1 else if decide (x = c) then 0 else -1
  end.

(** [s[:i]] and [s[i:]] for an index [i >= 0]. *)
Definition upto (i : Z) (s : str) : str := take (Z.to_nat i) s.
Definition from (i : Z) (s : str) : str := drop (Z.to_nat i) s.

(** [s.rstrip('/')] *)
Fixpoint rstrip_slash (s : str) : str :=
  match s with
  | [] => []
  | x :: rest =>
      match rstrip_slash rest with
      | [] => if decide (x = slash) then [] else [x]
      | kept => x :: kept
      end
  end.

(** [s == '/' * len(s)] *)
Definition all_slashes (s : str) : bool :=
  forallb (λ x, bool_decide (x = slash)) s.

(** [s.startswith('/')] and [s.endswith('/')] *)
Definition starts_with_slash (s : str) : bool :=
  match s with x :: _ => bool_decide (x = slash) | [] => false end.
Definition ends_with_slash (s : str) : bool :=
  match last s with Some x => bool_decide (x = slash) | None => false end.

(** [s.endswith(suffix)] *)
Definition endswith (s suffix : str) : bool :=
  bool_decide (drop (length s - length suffix) s = suffix).

(** [s.lower()] on ASCII letters. A character outside ASCII never
    lowers to one of the letters of the literals the program compares
    with, so the tests on [s.lower()] are the same on bytes. *)
Definition lower_char (c : ascii) : ascii :=
  let n := nat_of_ascii c in
  if ((65 <=? n) && (n <=? 90))%nat then ascii_of_nat (n + 32) else c.
Definition lower (s : str) : str := map lower_char s.

(** [os.path.dirname]:
    [i = p.rfind('/') + 1; head = p[:i];
     if head and head != '/'*len(head): head = head.rstrip('/')] *)
Definition os_path_dirname (p : str) : str :=
  let i := rfind slash p + 1 in
  let head := upto i p in
  if bool_decide (head ≠ []) && negb (all_slashes head)
  then rstrip_slash head else head.

(** [os.path.basename]: [i = p.rfind('/') + 1; return p[i:]] *)
Definition os_path_basename (p : str) : str :=
  let i := rfind slash p + 1 in from i p.

(** [os.path.splitext]: the extension starts at the last dot of the
    last component, unless only dots come before it in that component:
    [if dotIndex > sepIndex:
         filenameIndex = sepIndex + 1
         while filenameIndex < dotIndex:
             if p[filenameIndex] != '.': return p[:dotIndex], p[dotIndex:]
             filenameIndex += 1
     return p, ''] *)
Definition os_path_splitext (p : str) : str * str :=
  let sepIndex := rfind slash p in
  let dotIndex := rfind dot p in
  if (sepIndex <? dotIndex)
     && existsb (λ x, bool_decide (x ≠ dot)) (from (sepIndex + 1) (upto dotIndex p))
  then (upto dotIndex p, from dotIndex p)
  else (p, []).

(** [os.path.join(a, b)]:
    [if b.startswith('/'): path = b
     elif not path or path.endswith('/'): path += b
     else: path += '/' + b] *)
Definition os_path_join (a b : str) : str :=
  if starts_with_slash b then b
  else if bool_decide (a = []) || ends_with_slash a then a ++ b
  else a ++ slash :: b.

(** ** Where the Tagger writes (lines 17-26) *)

Definition input_dir (input_filepath : str) : str :=
  os_path_dirname input_filepath.
Definition filename (input_filepath : str) : str :=
  os_path_basename input_filepath.
Definition output_dir (input_filepath : str) : str :=
  os_path_join (input_dir input_filepath) (lit "Outputs").
Definition output_filename (input_filepath : str) : str :=
  let '(base, ext) := os_path_splitext (filename input_filepath) in
  base ++ lit "-mod" ++ ext.
Definition output_filepath (input_filepath : str) : str :=
  os_path_join (output_dir input_filepath) (output_filename input_filepath).

(** ** The file system

    A node is addressed by the list of its path components from the
    root. There are no symbolic links; [.] and [..] are resolved on the
    text of the path, as [os.path.normpath] resolves them. *)

(** [p.split('/')] *)
Fixpoint tokens (p : str) : list str :=
  match p with
  | [] => [[]]
  | x :: rest =>
      if decide (x = slash) then [] :: tokens rest
      else match tokens rest with
           | t :: ts => (x :: t) :: ts
           | [] => [[x]]
           end
  end.

(** One component applied to the directory reached so far. *)
Definition enter (at_dir : list str) (component : str) : list str :=
  if decide (component = []) then at_dir
  else if decide (component = lit ".") then at_dir
  else if decide (component = lit "..") then take (length at_dir - 1)%nat at_dir
  else at_dir ++ [component].

(** The node a path names, for a process whose working directory is
    [cwd]. *)
Definition key (cwd : list str) (p : str) : list str :=
  foldl enter (if starts_with_slash p then [] else cwd) (tokens p).

Record mode := Mode { readable : bool; writable : bool }.
Definition rw : mode := Mode true true.

Inductive node (text : Type) : Type :=
  | File (m : mode) (content : text)
  | Dir (m : mode).
Arguments File {text} m content.
Arguments Dir {text} m.

Definition is_file {text} (n : option (node text)) : bool :=
  match n with Some (File _ _) => true | _ => false end.
Definition is_dir {text} (n : option (node text)) : bool :=
  match n with Some (Dir _) => true | _ => false end.

(** The node stored at [k]; the root always exists. *)
Definition node_at {text} (fs : gmap (list str) (node text)) (k : list str)
  : option (node text) :=
  match fs !! k with
  | Some n => Some n
  | None => if decide (k = []) then Some (Dir rw) else None
  end.

(** The parent directory of a node. *)
Definition parent (k : list str) : list str := take (length k - 1)%nat k.

(** Whether some proper ancestor of [k] is a regular file. *)
Definition below_a_file {text} (fs : gmap (list str) (node text)) (k : list str)
  : bool :=
  existsb (λ n, is_file (node_at fs (take n k))) (seq 0 (length k)).

(** A name of a directory entry: not empty, not [.] or [..], without a
    slash. In a well-formed file system every component of every stored
    path is one. *)
Definition valid_name (c : str) : bool :=
  bool_decide (c ≠ []) && bool_decide (c ≠ lit ".")
  && bool_decide (c ≠ lit "..") && bool_decide (slash ∉ c).

Definition well_formed {text} (fs : gmap (list str) (node text)) : bool :=
  forallb (λ kn, forallb valid_name kn.1) (map_to_list fs).

(** A path without a component [..]. The kernel resolves [..] in the
    tree, where the component before it has to be a directory that
    exists; [key] resolves it on the text. The two agree on the paths
    without [..], and the paths the Shell hands on are such paths. *)
Definition dotdot_free (p : str) : bool :=
  forallb (λ c, bool_decide (c ≠ lit "..")) (tokens p).

(** Two file systems hold the same regular files, with the same
    contents. *)
Definition same_files {text} (m m' : gmap (list str) (node text)) : Prop :=
  ∀ k md content,
    node_at m' k = Some (File md content) ↔ node_at m k = Some (File md content).

(** Every node of [m] is still there in [m'], a directory as a
    directory and a regular file as a regular file. *)
Definition keeps_kinds {text} (m m' : gmap (list str) (node text)) : Prop :=
  ∀ k n, node_at m k = Some n →
    ∃ n', node_at m' k = Some n' ∧ is_file (Some n') = is_file (Some n).

(** Every node from the root down to [k] is a directory. *)
Definition dirs_down_to {text} (m : gmap (list str) (node text)) (k : list str)
  : bool :=
  forallb (λ n, is_dir (node_at m (take n k))) (seq 0 (S (length k))).

(** ** Exceptions and the console *)

Inductive exn : Type :=
  | FileNotFoundError
  | FileExistsError
  | IsADirectoryError
  | NotADirectoryError
  | PermissionError
  | JSONDecodeError
  | UnicodeEncodeError  (* [print] of a text the console cannot encode *)
  | OtherException      (* any other subclass of [Exception] *)
  | EOFError
  | KeyboardInterrupt.  (* a [BaseException] that is not an [Exception] *)

(** [isinstance(e, Exception)] *)
Definition is_Exception (e : exn) : bool :=
  match e with KeyboardInterrupt => false | _ => true end.

(** [open] on a path that names nothing. *)
Definition missing {text} (fs : gmap (list str) (node text)) (k : list str) : exn :=
  if below_a_file fs k then NotADirectoryError else FileNotFoundError.

(** What the program prints, one constructor for each [print] of the
    source (and for the prompt of each [input]). *)
Inductive line : Type :=
  | SuccessProcessed (file_name : str)                  (* line 48 *)
  | SavedTo (path : str)                                (* line 49 *)
  | ErrorNotAList (file_name : str)                     (* line 52 *)
  | ErrorNotFound (path : str)                          (* line 56 *)
  | ErrorDecode (path : str)                            (* line 59 *)
  | ErrorUnexpected (file_name : str) (e : exn)         (* line 62 *)
  | ProcessingFolder (path : str)                       (* line 74 *)
  | NoJsonFilesFound                                    (* line 78 *)
  | BatchComplete                                       (* line 87 *)
  | BlankRule                                           (* lines 96, 131 *)
  | Rule                                                (* line 98 *)
  | PromptMode | PromptFile | PromptDirectory | PromptAnother
  | InvalidChoice                                       (* line 103 *)
  | EmptyInput                                          (* line 110 *)
  | InvalidFile (user_input_path : str)                 (* line 121 *)
  | InvalidDirectory (user_input_path : str)            (* line 128 *)
  | Goodbye.                                            (* line 136 *)

(** The console. [can_print l] tells whether the text of [l] can be
    encoded for the standard output: on a console that cannot, [print]
    raises [UnicodeEncodeError] before anything is written. Most lines
    of the program start with an emoji, and several hold a path. *)
Class Console := can_print : line → bool.

(** ** The [json] library *)

Inductive load_result : Type :=
  | LoadOk (data : json)
  | LoadDecodeError    (* [json.JSONDecodeError] *)
  | LoadOtherError.    (* [UnicodeDecodeError], [RecursionError], ... *)

Inductive dump_result (text : Type) : Type :=
  | DumpOk (written : text)
  | DumpError (partial : text).  (* [UnicodeEncodeError], a full disk, ... *)
Arguments DumpOk {text} written.
Arguments DumpError {text} partial.

(** [json_load content] is [json.load] on a file that holds [content],
    read as UTF-8; [json_dump data] is what
    [json.dump(data, outfile, indent=2, ensure_ascii=False)] writes. *)
Class JsonLib (text : Type) := {
  json_load : text → load_result;
  json_dump : json → dump_result text;
}.

(** ** Commands *)

Record world (text : Type) : Type := World {
  fs : gmap (list str) (node text);   (* the file system *)
  cwd : list str;                     (* [os.getcwd()] *)
  stdin : list str;                   (* the lines the operator will type *)
  stdout : list line;                 (* what has been printed *)
}.
Arguments World {text} fs cwd stdin stdout.
Arguments fs {text} w.
Arguments cwd {text} w.
Arguments stdin {text} w.
Arguments stdout {text} w.

Inductive outcome (A : Type) : Type :=
  | Ok (a : A)
  | Raise (e : exn).
Arguments Ok {A} a.
Arguments Raise {A} e.

Section Program.
Context {text : Type} `{!JsonLib text} `{!Console}.

Definition M (A : Type) : Type := world text → outcome A * world text.

#[export] Instance M_ret : MRet M := λ A a w, (Ok a, w).
#[export] Instance M_bind : MBind M := λ A B f m w,
  match m w with
  | (Ok a, w') => f a w'
  | (Raise e, w') => (Raise e, w')
  end.

Definition raise {A} (e : exn) : M A := λ w, (Raise e, w).

(** [try: body / except ... as e: handler e]; the handler decides which
    exceptions it takes and re-raises the others. *)
Definition try_except {A} (body : M A) (handler : exn → M A) : M A := λ w,
  match body w with
  | (Ok a, w') => (Ok a, w')
  | (Raise e, w') => handler e w'
  end.

(** [for x in l: body x] *)
Fixpoint for_each {A} (l : list A) (body : A → M unit) : M unit :=
  match l with
  | [] => mret tt
  | x :: rest => body x;; for_each rest body
  end.

Definition set_fs (fs' : gmap (list str) (node text)) (w : world text)
  : world text :=
  World fs' (cwd w) (stdin w) (stdout w).

(** [print(l)]: the line goes to the console, or the console cannot
    encode it and nothing is printed. *)
Definition print (l : line) : M unit := λ w,
  if can_print l
  then (Ok tt, World (fs w) (cwd w) (stdin w) (stdout w ++ [l]))
  else (Raise UnicodeEncodeError, w).

(** [input(prompt)]: prints the prompt and takes the next line; at the
    end of the input, [EOFError]. *)
Definition input (prompt : line) : M str := λ w,
  let w' := World (fs w) (cwd w) (stdin w) (stdout w ++ [prompt]) in
  match stdin w with
  | [] => (Raise EOFError, w')
  | l :: rest => (Ok l, World (fs w) (cwd w) rest (stdout w ++ [prompt]))
  end.

(** *** [os] *)

(** [os.makedirs(name, exist_ok=True)] walks down from the root: a
    component that is a directory is entered, a missing one is created
    in its parent, a regular file on the way is an error. The
    directories created before an error stay. *)
Fixpoint makedirs_from (at_dir todo : list str)
    (m : gmap (list str) (node text))
  : outcome unit * gmap (list str) (node text) :=
  match todo with
  | [] => (Ok tt, m)
  | c :: rest =>
      let k := at_dir ++ [c] in
      match node_at m k with
      | Some (Dir _) => makedirs_from k rest m
      | Some (File _ _) =>
          (Raise (match rest with [] => FileExistsError | _ => NotADirectoryError end), m)
      | None =>
          match node_at m at_dir with
          | Some (Dir md) =>
              if writable md then makedirs_from k rest (<[k := Dir rw]> m)
              else (Raise PermissionError, m)
          | Some (File _ _) => (Raise NotADirectoryError, m)
          | None => (Raise FileNotFoundError, m)
          end
      end
  end.

Definition os_makedirs (name : str) : M unit := λ w,
  let '(r, m) := makedirs_from [] (key (cwd w) name) (fs w) in
  (r, set_fs m w).

(** [os.path.isfile], [os.path.isdir]: never raise. *)
Definition os_path_isfile (path : str) : M bool := λ w,
  (Ok (is_file (node_at (fs w) (key (cwd w) path))), w).
Definition os_path_isdir (path : str) : M bool := λ w,
  (Ok (is_dir (node_at (fs w) (key (cwd w) path))), w).

(** The name of [k'] when it is an entry of the directory [k]. *)
Definition entry_name (k k' : list str) : option str :=
  match last k' with
  | Some name => if decide (k' = k ++ [name]) then Some name else None
  | None => None
  end.

(** [os.listdir(path)] *)
Definition os_listdir (path : str) : M (list str) := λ w,
  let k := key (cwd w) path in
  match node_at (fs w) k with
  | Some (Dir md) =>
      if readable md
      then (Ok (omap (λ kn, entry_name k kn.1) (map_to_list (fs w))), w)
      else (Raise PermissionError, w)
  | Some (File _ _) => (Raise NotADirectoryError, w)
  | None => (Raise (missing (fs w) k), w)
  end.

(** [open(path, 'r')]: the content to read, or the error. *)
Definition readable_at (m : gmap (list str) (node text)) (k : list str)
  : exn + text :=
  match node_at m k with
  | Some (File md content) =>
      if readable md then inr content else inl PermissionError
  | Some (Dir _) => inl IsADirectoryError
  | None => inl (missing m k)
  end.

(** [open(path, 'w')]: the mode of the file once it is created or
    emptied, or the error. *)
Definition writable_at (m : gmap (list str) (node text)) (k : list str)
  : exn + mode :=
  match node_at m k with
  | Some (File md _) => if writable md then inr md else inl PermissionError
  | Some (Dir _) => inl IsADirectoryError
  | None =>
      match node_at m (parent k) with
      | Some (Dir md) => if writable md then inr rw else inl PermissionError
      | Some (File _ _) => inl NotADirectoryError
      | None => inl (missing m k)
      end
  end.

(** [with open(path, 'r', encoding='utf-8') as infile:
         data = json.load(infile)] *)
Definition read_json (path : str) : M json := λ w,
  match readable_at (fs w) (key (cwd w) path) with
  | inr content =>
      match json_load content with
      | LoadOk data => (Ok data, w)
      | LoadDecodeError => (Raise JSONDecodeError, w)
      | LoadOtherError => (Raise OtherException, w)
      end
  | inl e => (Raise e, w)
  end.

(** [open(path, 'w')] creates the file or empties it; [written] is what
    the body of the [with] puts into it before it is closed. Nothing
    reads the file in between, so the two steps are one update. *)
Definition open_for_writing (path : str) (written : text) : M unit := λ w,
  let k := key (cwd w) path in
  match writable_at (fs w) k with
  | inr md => (Ok tt, set_fs (<[k := File md written]> (fs w)) w)
  | inl e => (Raise e, w)
  end.

(** [with open(path, 'w', encoding='utf-8') as outfile:
         json.dump(data, outfile, indent=2, ensure_ascii=False)] *)
Definition write_json (path : str) (data : json) : M unit :=
  match json_dump data with
  | DumpOk written => open_for_writing path written
  | DumpError partial => open_for_writing path partial;; raise OtherException
  end.

(** ** The Tagger (lines 5-63) *)

Definition add_ids_to_json (input_filepath : str) : M (option str) :=
  try_except
    (os_makedirs (output_dir input_filepath);;
     data ← read_json input_filepath;
     match data with
     | JList data_list =>
         let data_list := add_ids data_list in
         write_json (output_filepath input_filepath) (JList data_list);;
         print (SuccessProcessed (filename input_filepath));;
         print (SavedTo (output_filepath input_filepath));;
         mret (Some (output_filepath input_filepath))
     | _ =>
         print (ErrorNotAList (filename input_filepath));;
         mret None
     end)
    (λ e,
       match e with
       | FileNotFoundError =>
           print (ErrorNotFound input_filepath);; mret None
       | JSONDecodeError =>
           print (ErrorDecode input_filepath);; mret None
       | _ =>
           if is_Exception e
           then print (ErrorUnexpected (filename input_filepath) e);; mret None
           else raise e
       end).

(** ** The Batch Runner (lines 67-87) *)

(** [f.lower().endswith('.json')] *)
Definition has_json_suffix (f : str) : bool := endswith (lower f) (lit ".json").

Definition process_folder (folder_path : str) : M unit :=
  print (ProcessingFolder folder_path);;
  names ← os_listdir folder_path;
  let json_files := List.filter has_json_suffix names in
  match json_files with
  | [] => print NoJsonFilesFound
  | _ =>
      for_each json_files (λ file_name,
        let filepath := os_path_join folder_path file_name in
        is_a_file ← os_path_isfile filepath;
        if is_a_file : bool then add_ids_to_json filepath;; mret tt
        else mret tt);;
      print BatchComplete
  end.

(** ** The Shell (lines 91-136) *)

(** [s.strip()] removes ASCII white space at both ends, [s.strip(chars)]
    the characters of [chars]. *)
Definition is_space (c : ascii) : bool :=
  let n := nat_of_ascii c in
  (((9 <=? n) && (n <=? 13)) || ((28 <=? n) && (n <=? 32)))%nat.
(** Text made of ASCII characters: on it [strip is_space] and [lower]
    are [str.strip] and [str.lower]; beyond ASCII, Python also strips
    the white space of Unicode. *)
Definition is_ascii (s : str) : bool :=
  forallb (λ c, (nat_of_ascii c <? 128)%nat) s.
Fixpoint lstrip (drop_it : ascii → bool) (s : str) : str :=
  match s with
  | x :: rest => if drop_it x then lstrip drop_it rest else s
  | [] => []
  end.
Definition strip (drop_it : ascii → bool) (s : str) : str :=
  reverse (lstrip drop_it (reverse (lstrip drop_it s))).
Definition is_quote (c : ascii) : bool :=
  bool_decide (c = ascii_of_nat 34) || bool_decide (c = ascii_of_nat 39).

(** ['/'.join(comps)] *)
Fixpoint join_slash (comps : list str) : str :=
  match comps with
  | [] => []
  | [c] => c
  | c :: rest => c ++ slash :: join_slash rest
  end.

(** [os.path.normpath] *)
Definition normpath_step (initial_slashes : nat) (new_comps : list str)
    (comp : str) : list str :=
  if bool_decide (comp = []) || bool_decide (comp = lit ".") then new_comps
  else if bool_decide (comp ≠ lit "..")
          || (bool_decide (initial_slashes = 0%nat) && bool_decide (new_comps = []))
          || bool_decide (last new_comps = Some (lit ".."))
  then new_comps ++ [comp]
  else take (length new_comps - 1)%nat new_comps.

Definition os_path_normpath (path : str) : str :=
  if decide (path = []) then lit "." else
  let initial_slashes :=
    match path with
    | a :: b :: c :: _ =>
        if bool_decide (a = slash) && bool_decide (b = slash)
           && negb (bool_decide (c = slash)) then 2%nat
        else if bool_decide (a = slash) then 1%nat else 0%nat
    | [a; b] =>
        if bool_decide (a = slash) && bool_decide (b = slash) then 2%nat
        else if bool_decide (a = slash) then 1%nat else 0%nat
    | _ => if starts_with_slash path then 1%nat else 0%nat
    end in
  let comps := foldl (normpath_step initial_slashes) [] (tokens path) in
  let path' := replicate initial_slashes slash ++ join_slash comps in
  if decide (path' = []) then lit "." else path'.

(** [os.path.abspath]: a relative path is joined to [os.getcwd()]. *)
Definition os_path_abspath (path : str) : M str := λ w,
  let path' :=
    if starts_with_slash path then path
    else os_path_join (slash :: join_slash (cwd w)) path in
  (Ok (os_path_normpath path'), w).

(** The single-file branch (lines 116-121). *)
Definition single_file_mode (user_input_path normalized_path : str) : M unit :=
  is_a_file ← os_path_isfile normalized_path;
  if (is_a_file : bool) && has_json_suffix normalized_path
  then add_ids_to_json normalized_path;; mret tt
  else print (InvalidFile user_input_path).

(** The directory branch (lines 123-128). *)
Definition directory_mode (user_input_path normalized_path : str) : M unit :=
  is_a_dir ← os_path_isdir normalized_path;
  if is_a_dir : bool then process_folder normalized_path
  else print (InvalidDirectory user_input_path).

Inductive flow : Type := Continue | Break.

(** One turn of the [while True] loop. *)
Definition main_iteration : M flow :=
  print BlankRule;;
  answer ← input PromptMode;
  let mode_choice := strip is_space (lower answer) in
  print Rule;;
  if decide (mode_choice = lit "exit") then mret Break
  else if negb (bool_decide (mode_choice = lit "f") || bool_decide (mode_choice = lit "d"))
  then print InvalidChoice;; mret Continue
  else
    answer ← input (if decide (mode_choice = lit "f") then PromptFile
                    else PromptDirectory);
    let user_input_path := strip is_quote (strip is_space answer) in
    if decide (user_input_path = []) then print EmptyInput;; mret Continue
    else
      normalized_path ← os_path_abspath (os_path_normpath user_input_path);
      (if decide (mode_choice = lit "f")
       then single_file_mode user_input_path normalized_path
       else directory_mode user_input_path normalized_path);;
      print BlankRule;;
      answer ← input PromptAnother;
      let another := strip is_space (lower answer) in
      if decide (another = lit "y") then mret Continue else mret Break.

(** The loop; every turn reads at least one line or stops on
    [EOFError], so [turns] above the number of lines left is never
    used up. *)
Fixpoint main_loop (turns : nat) : M unit :=
  match turns with
  | O => mret tt
  | S turns' =>
      next ← main_iteration;
      match next with
      | Break => mret tt
      | Continue => main_loop turns'
      end
  end.

Definition main : M unit := λ w,
  (main_loop (S (length (stdin w)));; print Goodbye) w.

(** ** The runs, stage by stage

    The Tagger written as the decisions it takes one after the other,
    and the Batch Runner as the Tagger runs it chains. They are proved
    equal to [add_ids_to_json] and [process_folder] below and serve the
    proofs. *)

(** The line an [except] clause prints for [e]. *)
Definition reported (input_filepath : str) (e : exn) : line :=
  match e with
  | FileNotFoundError => ErrorNotFound input_filepath
  | JSONDecodeError => ErrorDecode input_filepath
  | _ => ErrorUnexpected (filename input_filepath) e
  end.

(** A failed run, the file system being [m]: the [except] clause
    prints [l] and the run returns [None]; when [l] cannot be printed
    its [UnicodeEncodeError], raised outside the [try], leaves the
    Tagger. *)
Definition failed (m : gmap (list str) (node text)) (l : line) (w : world text)
  : outcome (option str) * world text :=
  if can_print l
  then (Ok None, World m (cwd w) (stdin w) (stdout w ++ [l]))
  else (Raise UnicodeEncodeError, World m (cwd w) (stdin w) (stdout w)).

Definition tagger_steps (input_filepath : str) (w : world text)
  : outcome (option str) * world text :=
  let out := output_filepath input_filepath in
  match makedirs_from [] (key (cwd w) (output_dir input_filepath)) (fs w) with
  | (Raise e, m1) => failed m1 (reported input_filepath e) w
  | (Ok _, m1) =>
      match readable_at m1 (key (cwd w) input_filepath) with
      | inl e => failed m1 (reported input_filepath e) w
      | inr content =>
          match json_load content with
          | LoadDecodeError => failed m1 (ErrorDecode input_filepath) w
          | LoadOtherError =>
              failed m1 (ErrorUnexpected (filename input_filepath) OtherException) w
          | LoadOk (JList data_list) =>
              match writable_at m1 (key (cwd w) out) with
              | inl e => failed m1 (reported input_filepath e) w
              | inr md =>
                  match json_dump (JList (add_ids data_list)) with
                  | DumpOk written =>
                      let m2 := <[key (cwd w) out := File md written]> m1 in
                      let unprintable :=
                        ErrorUnexpected (filename input_filepath)
                          UnicodeEncodeError in
                      if can_print (SuccessProcessed (filename input_filepath))
                      then
                        if can_print (SavedTo out)
                        then
                          (Ok (Some out),
                           World m2 (cwd w) (stdin w)
                             (stdout w
                                ++ [SuccessProcessed (filename input_filepath);
                                    SavedTo out]))
                        else
                          failed m2 unprintable
                            (World m2 (cwd w) (stdin w)
                               (stdout w
                                  ++ [SuccessProcessed (filename input_filepath)]))
                      else failed m2 unprintable w
                  | DumpError partial =>
                      failed (<[key (cwd w) out := File md partial]> m1)
                        (ErrorUnexpected (filename input_filepath) OtherException) w
                  end
              end
          | LoadOk _ =>
              if can_print (ErrorNotAList (filename input_filepath))
              then
                (Ok None,
                 World m1 (cwd w) (stdin w)
                   (stdout w ++ [ErrorNotAList (filename input_filepath)]))
              else
                failed m1
                  (ErrorUnexpected (filename input_filepath) UnicodeEncodeError) w
          end
      end
  end.

(** One turn of the loop of [process_folder]. *)
Definition batch_turn (folder_path : str) (w : world text) (file_name : str)
  : world text :=
  if is_file (node_at (fs w) (key (cwd w) (os_path_join folder_path file_name)))
  then (add_ids_to_json (os_path_join folder_path file_name) w).2
  else w.

(** The Tagger run on each file of [files] in turn, every run starting
    in the world the one before has left. *)
Definition tag_all (folder_path : str) (files : list str) (w : world text)
  : world text :=
  foldl (λ w' file_name,
           (add_ids_to_json (os_path_join folder_path file_name) w').2)
    w files.

End Program.

(** ** Consoles

    A console that can show every line the program prints, a UTF-8
    terminal for instance: the statements that name no console are
    about the program on this one. *)
#[export] Instance full_console : Console := λ _, true.

(** A console limited to ASCII, such as a standard output redirected
    under the C locale or a code page without emoji: it cannot show the
    lines that start with an emoji. The other lines are those that hold
    nothing but ASCII text and a path. *)
Definition ascii_console : Console := λ l,
  match l with
  | SavedTo _ | ProcessingFolder _ | BlankRule | Rule
  | PromptMode | PromptFile | PromptDirectory | PromptAnother => true
  | _ => false
  end.

(** ** A concrete [json] library and sample worlds

    For examples, a text is identified with the document it holds:
    [Some data] is the text of [data], [None] a text that is not JSON. *)

#[export] Instance doc_lib : JsonLib (option json) := {
  json_load content :=
    match content with Some data => LoadOk data | None => LoadDecodeError end;
  json_dump data := DumpOk (Some data);
}.

Definition sample_records : json :=
  JList [JDict [(lit "a", JInt 1)]; JStr (lit "note"); JDict [(lit "id", JInt 99)]].

(** [/srv/data] holds two JSON arrays, a JSON object, a file that is
    not JSON, a text file and a directory whose name ends in [.json];
    [/srv/only_dirs] holds nothing but such a directory. *)
Definition sample_fs : gmap (list str) (node (option json)) :=
  list_to_map [
    ([lit "srv"], Dir rw);
    ([lit "srv"; lit "data"], Dir rw);
    ([lit "srv"; lit "data"; lit "people.json"], File rw (Some sample_records));
    ([lit "srv"; lit "data"; lit "object.JSON"],
       File rw (Some (JDict [(lit "a", JInt 1)])));
    ([lit "srv"; lit "data"; lit "ids.json"],
       File rw (Some (JList [JDict [(lit "id", JInt 99)]])));
    ([lit "srv"; lit "data"; lit "broken.json"], File rw None);
    ([lit "srv"; lit "data"; lit "notes.txt"], File rw None);
    ([lit "srv"; lit "data"; lit "archive.json"], Dir rw);
    ([lit "srv"; lit "only_dirs"], Dir rw);
    ([lit "srv"; lit "only_dirs"; lit "x.json"], Dir rw)
  ].

Definition sample_world : world (option json) :=
  World sample_fs [lit "srv"] [] [].

(** * Properties *)

(** ** Dicts and the tagging loop *)

Lemma dict_get_set_eq key value d :
  dict_get key (dict_set key value d) = Some value.
Proof.
  induction d as [|[k v] rest IH]; simpl.
  - by rewrite decide_True.
  - destruct (decide (k = key)) as [->|Hne]; simpl.
    + by rewrite decide_True.
    + by rewrite decide_False.
Qed.

Lemma dict_get_set_ne key key' value d :
  key ≠ key' → dict_get key' (dict_set key value d) = dict_get key' d.
Proof.
  intros Hne. induction d as [|[k v] rest IH]; simpl.
  - by rewrite decide_False.
  - destruct (decide (k = key)) as [->|Hk]; simpl.
    + by rewrite !decide_False.
    + destruct (decide (k = key')); auto.
Qed.

Lemma dict_remove_set key value d :
  dict_remove key (dict_set key value d) = dict_remove key d.
Proof.
  induction d as [|[k v] rest IH]; simpl.
  - by rewrite decide_True.
  - destruct (decide (k = key)) as [->|Hk]; simpl.
    + by rewrite decide_True.
    + rewrite decide_False by done. by f_equal.
Qed.

Lemma add_ids_length data_list : length (add_ids data_list) = length data_list.
Proof. apply length_imap. Qed.

Lemma add_ids_lookup data_list (i : nat) :
  add_ids data_list !! i = tag_entry i <$> data_list !! i.
Proof. apply list_lookup_imap. Qed.

Example add_ids_two_records :
  add_ids [JDict [(lit "a", JInt 1)]; JDict [(lit "a", JInt 2)]]
  = [JDict [(lit "a", JInt 1); (lit "id", JInt 1)];
     JDict [(lit "a", JInt 2); (lit "id", JInt 2)]].
Proof. reflexivity. Qed.

(** ** Strings and paths *)

Lemma rfind_cases c s :
  ((c ∉ s) ∧ rfind c s = (-1))
  ∨ (∃ a b, s = a ++ c :: b ∧ (c ∉ b) ∧ rfind c s = Z.of_nat (length a)).
Proof.
  induction s as [|x rest IH]; simpl.
  - left. split; [apply not_elem_of_nil | done].
  - destruct IH as [[Hnot ->]|(a & b & -> & Hb & ->)].
    + simpl. destruct (decide (x = c)) as [->|Hx].
      * right. exists [], rest. done.
      * left. split; [|done]. rewrite elem_of_cons. intros [?|?]; by simplify_eq.
    + right. exists (x :: a), b. split_and!; [done..|].
      rewrite (proj2 (Z.leb_le _ _)) by lia. simpl. lia.
Qed.

Lemma rfind_absent c s : c ∉ s → rfind c s = (-1).
Proof.
  intros Hnot. destruct (rfind_cases c s) as [[_ ?]|(a & b & -> & _ & _)]; [done|].
  exfalso. apply Hnot. rewrite elem_of_app, elem_of_cons. auto.
Qed.

Lemma rfind_last c a b : c ∉ b → rfind c (a ++ c :: b) = Z.of_nat (length a).
Proof.
  intros Hb. induction a as [|x a IH]; simpl.
  - rewrite (rfind_absent c b Hb). simpl. by rewrite decide_True.
  - rewrite IH. rewrite (proj2 (Z.leb_le _ _)) by lia. lia.
Qed.

Lemma upto_app_length (a b : str) : upto (Z.of_nat (length a)) (a ++ b) = a.
Proof. unfold upto. rewrite Nat2Z.id. by rewrite take_app_length. Qed.

Lemma from_app_length (a b : str) : from (Z.of_nat (length a)) (a ++ b) = b.
Proof. unfold from. rewrite Nat2Z.id. by rewrite drop_app_length. Qed.

(** The two components [os.path.split] cuts a path into. *)
Lemma basename_no_slash_path p : slash ∉ p → os_path_basename p = p.
Proof.
  intros Hp. unfold os_path_basename. by rewrite (rfind_absent _ _ Hp).
Qed.

Lemma basename_after_slash a b :
  slash ∉ b → os_path_basename (a ++ slash :: b) = b.
Proof.
  intros Hb. unfold os_path_basename. rewrite (rfind_last _ _ _ Hb).
  replace (Z.of_nat (length a) + 1) with (Z.of_nat (length (a ++ [slash])))
    by (rewrite length_app; simpl; lia).
  by rewrite (cons_middle slash a b), app_assoc, from_app_length.
Qed.

Lemma basename_no_slash p : slash ∉ os_path_basename p.
Proof.
  destruct (rfind_cases slash p) as [[Hnot _]|(a & b & -> & Hb & _)].
  - by rewrite basename_no_slash_path.
  - by rewrite basename_after_slash.
Qed.

Lemma rstrip_slash_snoc s : rstrip_slash (s ++ [slash]) = rstrip_slash s.
Proof.
  induction s as [|x s IH]; simpl; [done|]. by rewrite IH.
Qed.

Lemma rstrip_slash_keeps s x :
  last s = Some x → x ≠ slash → rstrip_slash s = s.
Proof.
  revert x. induction s as [|y s IH]; intros x Hlast Hx; [done|].
  destruct s as [|z s].
  - simpl in *. simplify_eq. by rewrite decide_False.
  - change (last (y :: z :: s)) with (last (z :: s)) in Hlast.
    specialize (IH x Hlast Hx).
    change (rstrip_slash (y :: z :: s)) with
      (match rstrip_slash (z :: s) with
       | [] => if decide (y = slash) then [] else [y]
       | kept => y :: kept
       end).
    by rewrite IH.
Qed.

Lemma all_slashes_false s x : x ∈ s → x ≠ slash → all_slashes s = false.
Proof.
  intros Hin Hx. unfold all_slashes. apply not_true_is_false. intros Hall.
  rewrite forallb_forall in Hall. apply list_elem_of_In, Hall in Hin.
  by apply bool_decide_eq_true in Hin.
Qed.

Lemma dirname_no_slash_path p : slash ∉ p → os_path_dirname p = [].
Proof.
  intros Hp. unfold os_path_dirname. by rewrite (rfind_absent _ _ Hp).
Qed.

Lemma head_before_basename a b :
  slash ∉ b →
  upto (rfind slash (a ++ slash :: b) + 1) (a ++ slash :: b) = a ++ [slash].
Proof.
  intros Hb. rewrite (rfind_last _ _ _ Hb).
  replace (Z.of_nat (length a) + 1) with (Z.of_nat (length (a ++ [slash])))
    by (rewrite length_app; simpl; lia).
  by rewrite (cons_middle slash a b), app_assoc, upto_app_length.
Qed.

Lemma dirname_after_slash a b :
  slash ∉ b →
  os_path_dirname (a ++ slash :: b)
  = if all_slashes (a ++ [slash]) then a ++ [slash] else rstrip_slash a.
Proof.
  intros Hb. unfold os_path_dirname. rewrite (head_before_basename _ _ Hb).
  rewrite bool_decide_eq_true_2 by (by destruct a).
  simpl. destruct (all_slashes (a ++ [slash])); simpl; [done|].
  apply rstrip_slash_snoc.
Qed.

Lemma all_slashes_snoc a : all_slashes (a ++ [slash]) = all_slashes a.
Proof.
  unfold all_slashes. rewrite forallb_app. simpl. by rewrite andb_true_r.
Qed.

Lemma rstrip_slash_decompose a :
  ∃ n, a = rstrip_slash a ++ replicate n slash.
Proof.
  induction a as [|x a [n IH]]; [by exists 0%nat|]. simpl.
  destruct (rstrip_slash a) as [|y kept] eqn:Hkept.
  - destruct (decide (x = slash)) as [->|Hx].
    + exists (S n). simpl in *. by rewrite IH at 1.
    + exists n. simpl in *. by rewrite IH at 1.
  - exists n. simpl in *. by rewrite IH at 1.
Qed.

Lemma rstrip_slash_nil a : rstrip_slash a = [] → all_slashes a = true.
Proof.
  induction a as [|x a IH]; [done|]. simpl.
  destruct (rstrip_slash a) eqn:Hkept; [|done].
  destruct (decide (x = slash)) as [->|]; [|done].
  intros _. rewrite bool_decide_eq_true_2 by done. by apply IH.
Qed.

(** *** Path components *)

Lemma tokens_nonempty p : tokens p ≠ [].
Proof.
  destruct p as [|x p]; simpl; [done|].
  destruct (decide (x = slash)); [done|]. by destruct (tokens p).
Qed.

Lemma tokens_app a b : tokens (a ++ slash :: b) = tokens a ++ tokens b.
Proof.
  induction a as [|x a IH]; simpl; [done|].
  destruct (decide (x = slash)); [by rewrite IH|].
  rewrite IH. pose proof (tokens_nonempty a). by destruct (tokens a).
Qed.

Lemma tokens_no_slash b : slash ∉ b → tokens b = [b].
Proof.
  induction b as [|x b IH]; [done|]. intros Hb.
  apply not_elem_of_cons in Hb as [Hx Hb]. simpl.
  rewrite decide_False by done. by rewrite IH.
Qed.

Lemma tokens_slashes n : tokens (replicate n slash) = replicate (S n) [].
Proof.
  induction n as [|n IH]; [done|]. simpl. by rewrite IH.
Qed.

Lemma enter_empties at_dir n : foldl enter at_dir (replicate n []) = at_dir.
Proof. induction n; simpl; auto. Qed.

Lemma valid_name_spec c :
  valid_name c = true ↔ c ≠ [] ∧ c ≠ lit "." ∧ c ≠ lit ".." ∧ slash ∉ c.
Proof.
  unfold valid_name. rewrite !andb_true_iff, !bool_decide_eq_true. tauto.
Qed.

Lemma enter_valid_name at_dir c :
  valid_name c = true → enter at_dir c = at_dir ++ [c].
Proof.
  rewrite valid_name_spec. intros (? & ? & ? & _). unfold enter.
  by rewrite !decide_False.
Qed.

Lemma enter_length at_dir c : (length (enter at_dir c) ≤ length at_dir + 1)%nat.
Proof.
  unfold enter. repeat case_decide; rewrite ?length_take, ?length_app; simpl; lia.
Qed.

Lemma starts_with_slash_app a b :
  a ≠ [] → starts_with_slash (a ++ b) = starts_with_slash a.
Proof. by destruct a. Qed.

Lemma key_nil cwd : key cwd [] = cwd.
Proof. done. Qed.

Lemma key_app_slash cwd a b :
  a ≠ [] → key cwd (a ++ slash :: b) = foldl enter (key cwd a) (tokens b).
Proof.
  intros Ha. unfold key.
  by rewrite starts_with_slash_app, tokens_app, foldl_app.
Qed.

Lemma key_leading_slash cwd b :
  key cwd (slash :: b) = foldl enter [] (tokens b).
Proof. done. Qed.

Lemma key_no_slash cwd b : slash ∉ b → key cwd b = enter cwd b.
Proof.
  intros Hb. unfold key. rewrite (tokens_no_slash _ Hb).
  destruct b as [|x b]; [done|]. apply not_elem_of_cons in Hb as [Hx _].
  simpl. by rewrite bool_decide_eq_false_2.
Qed.

Lemma key_trailing_slashes cwd a n :
  a ≠ [] → key cwd (a ++ replicate n slash) = key cwd a.
Proof.
  intros Ha. destruct n as [|n]; [by rewrite app_nil_r|]. simpl.
  by rewrite key_app_slash, tokens_slashes, enter_empties.
Qed.

Lemma key_rstrip_slash cwd a :
  all_slashes a = false → key cwd (rstrip_slash a) = key cwd a.
Proof.
  intros Hall. destruct (rstrip_slash_decompose a) as [n Hn].
  rewrite Hn at 2. rewrite key_trailing_slashes; [done|].
  intros Hnil. apply rstrip_slash_nil in Hnil. congruence.
Qed.

(** [os.path.join] with a name goes one step down from the directory. *)
Lemma key_join cwd a b :
  slash ∉ b → key cwd (os_path_join a b) = enter (key cwd a) b.
Proof.
  intros Hb. unfold os_path_join.
  assert (starts_with_slash b = false) as ->.
  { destruct b as [|x b]; [done|]. apply not_elem_of_cons in Hb as [Hx _].
    simpl. by rewrite bool_decide_eq_false_2. }
  destruct (decide (a = [])) as [->|Ha].
  { simpl. by rewrite key_nil, key_no_slash. }
  rewrite bool_decide_eq_false_2 by done. simpl.
  unfold ends_with_slash. destruct (last a) as [x|] eqn:Hlast.
  - apply last_Some in Hlast as [a' ->]. case_bool_decide as Hx.
    + subst x. rewrite <- app_assoc. simpl.
      destruct (decide (a' = [])) as [->|Ha'].
      * simpl. rewrite !key_leading_slash, (tokens_no_slash _ Hb). done.
      * rewrite !key_app_slash, (tokens_no_slash _ Hb) by done. done.
    + by rewrite key_app_slash, (tokens_no_slash _ Hb).
  - by rewrite key_app_slash, (tokens_no_slash _ Hb).
Qed.

(** A path names the entry [basename] of the directory [dirname]. *)
Lemma key_dirname_basename cwd p :
  key cwd p = enter (key cwd (os_path_dirname p)) (os_path_basename p).
Proof.
  destruct (rfind_cases slash p) as [[Hnot _]|(a & b & -> & Hb & _)].
  - by rewrite dirname_no_slash_path, basename_no_slash_path, key_nil, key_no_slash.
  - rewrite basename_after_slash, dirname_after_slash by done.
    destruct (decide (a = [])) as [->|Ha].
    + simpl. by rewrite !key_leading_slash, (tokens_no_slash _ Hb).
    + rewrite key_app_slash, (tokens_no_slash _ Hb) by done. simpl. f_equal.
      rewrite all_slashes_snoc. destruct (all_slashes a) eqn:Hall.
      * by rewrite key_app_slash.
      * by rewrite key_rstrip_slash.
Qed.

(** *** The output path *)

Lemma splitext_parts f :
  ∃ base ext, os_path_splitext f = (base, ext) ∧ f = base ++ ext.
Proof.
  unfold os_path_splitext. case_match.
  - eexists _, _. split; [done|]. unfold upto, from. by rewrite take_drop.
  - exists f, []. by rewrite app_nil_r.
Qed.

Lemma output_filename_parts p :
  ∃ base ext,
    os_path_splitext (os_path_basename p) = (base, ext)
    ∧ output_filename p = base ++ lit "-mod" ++ ext
    ∧ os_path_basename p = base ++ ext.
Proof.
  unfold output_filename, filename.
  destruct (splitext_parts (os_path_basename p)) as (base & ext & Hsplit & Hf).
  rewrite Hsplit. by exists base, ext.
Qed.

Lemma output_filename_valid p : valid_name (output_filename p) = true.
Proof.
  destruct (output_filename_parts p) as (base & ext & _ & -> & Hf).
  pose proof (basename_no_slash p) as Hslash. rewrite Hf in Hslash.
  apply not_elem_of_app in Hslash as [Hbase Hext].
  assert ("-"%char ∈ base ++ lit "-mod" ++ ext) as Hdash.
  { rewrite elem_of_app. right. apply elem_of_app. left. by left. }
  apply valid_name_spec. split_and!.
  - intros Heq. rewrite Heq in Hdash. by apply elem_of_nil in Hdash.
  - intros Heq. rewrite Heq in Hdash. by apply list_elem_of_singleton in Hdash.
  - intros Heq. rewrite Heq in Hdash.
    apply elem_of_cons in Hdash as [?|Hdash]; [done|].
    by apply list_elem_of_singleton in Hdash.
  - rewrite !not_elem_of_app. split_and!; [done| |done].
    by intros Hin%list_elem_of_In; simpl in Hin; intuition.
Qed.

Lemma key_output_dir cwd p :
  key cwd (output_dir p) = key cwd (input_dir p) ++ [lit "Outputs"].
Proof.
  unfold output_dir. rewrite key_join.
  - by apply enter_valid_name.
  - by intros Hin%list_elem_of_In; simpl in Hin; intuition.
Qed.

Lemma key_output_filepath cwd p :
  key cwd (output_filepath p) = key cwd (output_dir p) ++ [output_filename p].
Proof.
  pose proof (output_filename_valid p) as Hvalid.
  unfold output_filepath. rewrite key_join.
  - by apply enter_valid_name.
  - by apply valid_name_spec in Hvalid as (_ & _ & _ & ?).
Qed.

(** The Tagger never writes over its own input. *)
Lemma key_output_ne cwd p : key cwd (output_filepath p) ≠ key cwd p.
Proof.
  intros Heq. apply (f_equal length) in Heq.
  rewrite key_output_filepath, key_output_dir, !length_app in Heq. simpl in Heq.
  rewrite (key_dirname_basename cwd p) in Heq.
  pose proof (enter_length (key cwd (os_path_dirname p)) (os_path_basename p)).
  unfold input_dir in Heq. lia.
Qed.

Lemma splitext_name_ext name e :
  slash ∉ name → slash ∉ e → dot ∉ e → (∃ x, x ∈ name ∧ x ≠ dot) →
  os_path_splitext (name ++ dot :: e) = (name, dot :: e).
Proof.
  intros Hname He Hdot (x & Hx & Hxdot). unfold os_path_splitext.
  rewrite rfind_absent, (rfind_last _ _ _ Hdot).
  2:{ rewrite not_elem_of_app, not_elem_of_cons. done. }
  rewrite upto_app_length, from_app_length.
  replace (-1 <? Z.of_nat (length name)) with true by (symmetry; apply Z.ltb_lt; lia).
  simpl. unfold from. change (Z.to_nat (-1 + 1)) with 0%nat. rewrite drop_0.
  assert (existsb (λ x0, bool_decide (x0 ≠ dot)) name = true) as ->; [|done].
  apply existsb_exists. exists x. split; [by apply list_elem_of_In|].
  by apply bool_decide_eq_true.
Qed.

(** The derivation of the output path, on a path with a directory
    part [D] (not ending in a slash; empty for a file of the root), a
    base name and an extension. *)
Lemma output_filepath_of_parts D name e :
  last D ≠ Some slash →
  slash ∉ name → slash ∉ e → dot ∉ e → (∃ x, x ∈ name ∧ x ≠ dot) →
  output_dir (D ++ slash :: name ++ dot :: e) = D ++ slash :: lit "Outputs"
  ∧ output_filename (D ++ slash :: name ++ dot :: e)
    = name ++ lit "-mod" ++ dot :: e
  ∧ output_filepath (D ++ slash :: name ++ dot :: e)
    = D ++ slash :: lit "Outputs" ++ slash :: name ++ lit "-mod" ++ dot :: e.
Proof.
  intros HD Hname He Hdot Hx.
  assert (slash ∉ name ++ dot :: e) as Hfile.
  { rewrite not_elem_of_app, not_elem_of_cons. done. }
  assert (output_dir (D ++ slash :: name ++ dot :: e) = D ++ slash :: lit "Outputs")
    as Hdir.
  { unfold output_dir, input_dir. rewrite dirname_after_slash by done.
    destruct (last D) as [x|] eqn:Hlast.
    - assert (x ≠ slash) by congruence.
      rewrite all_slashes_snoc, (all_slashes_false D x); [|by eapply last_Some_elem_of|done].
      rewrite (rstrip_slash_keeps D x) by done.
      unfold os_path_join. simpl. unfold ends_with_slash. rewrite Hlast.
      rewrite bool_decide_eq_false_2 by (intros ->; done).
      by rewrite bool_decide_eq_false_2. 
    - apply last_None in Hlast as ->. done. }
  assert (output_filename (D ++ slash :: name ++ dot :: e)
          = name ++ lit "-mod" ++ dot :: e) as Hfn.
  { unfold output_filename, filename. rewrite basename_after_slash by done.
    by rewrite splitext_name_ext. }
  split_and!; [done..|].
  unfold output_filepath. rewrite Hdir, Hfn.
  unfold os_path_join.
  assert (starts_with_slash (name ++ lit "-mod" ++ dot :: e) = false) as ->.
  { destruct name as [|y name]; [done|]. apply not_elem_of_cons in Hname as [? _].
    simpl. by rewrite bool_decide_eq_false_2. }
  rewrite bool_decide_eq_false_2 by (by destruct D).
  assert (ends_with_slash (D ++ slash :: lit "Outputs") = false) as ->.
  { unfold ends_with_slash.
    change (D ++ slash :: lit "Outputs") with (D ++ lit "/Output" ++ ["s"%char]).
    by rewrite !app_assoc, last_snoc. }
  simpl. by rewrite <- app_assoc.
Qed.

(** ** The file system *)

Section FileSystem.
Context {text : Type}.
Implicit Types (m : gmap (list str) (node text)) (k : list str).

Lemma node_at_insert m k (n : node text) k' :
  node_at (<[k := n]> m) k' = if decide (k = k') then Some n else node_at m k'.
Proof.
  unfold node_at. rewrite lookup_insert. by destruct (decide (k = k')).
Qed.

Lemma node_at_insert_eq m k (n : node text) : node_at (<[k := n]> m) k = Some n.
Proof. rewrite node_at_insert. by rewrite decide_True. Qed.

Lemma node_at_insert_ne m k (n : node text) k' :
  k ≠ k' → node_at (<[k := n]> m) k' = node_at m k'.
Proof. intros. rewrite node_at_insert. by rewrite decide_False. Qed.

Lemma same_files_refl m : same_files m m.
Proof. by intros k md c. Qed.

Lemma same_files_trans m1 m2 m3 :
  same_files m1 m2 → same_files m2 m3 → same_files m1 m3.
Proof. intros H12 H23 k md c. etrans; [apply H23|apply H12]. Qed.

Lemma same_files_new_dir m k md :
  node_at m k = None → same_files m (<[k := Dir md]> m).
Proof.
  intros Hk k' md' c. rewrite node_at_insert. case_decide; [|done].
  subst k'. rewrite Hk. split; intros; simplify_eq.
Qed.

Lemma dirs_down_to_spec m k :
  dirs_down_to m k = true
  ↔ ∀ n, (n ≤ length k)%nat → is_dir (node_at m (take n k)) = true.
Proof.
  unfold dirs_down_to. rewrite forallb_forall. split.
  - intros H n Hn. apply H, in_seq. lia.
  - intros H n Hn%in_seq. apply H. lia.
Qed.

(** *** [os.makedirs] *)

Lemma makedirs_from_keeps at_dir todo m r m' :
  makedirs_from at_dir todo m = (r, m') →
  ∀ k n, node_at m k = Some n → node_at m' k = Some n.
Proof.
  revert at_dir m. induction todo as [|c rest IH]; intros at_dir m Hrun k n Hk;
    simpl in Hrun.
  - by simplify_eq.
  - destruct (node_at m (at_dir ++ [c])) as [[md content|md]|] eqn:Hnode.
    + by simplify_eq.
    + eauto.
    + destruct (node_at m at_dir) as [[md content|md]|]; [by simplify_eq| |by simplify_eq].
      destruct (writable md); [|by simplify_eq].
      eapply IH; [done|]. rewrite node_at_insert_ne; [done|]. congruence.
Qed.

Lemma makedirs_from_same_files at_dir todo m r m' :
  makedirs_from at_dir todo m = (r, m') → same_files m m'.
Proof.
  revert at_dir m. induction todo as [|c rest IH]; intros at_dir m Hrun;
    simpl in Hrun.
  - simplify_eq. apply same_files_refl.
  - destruct (node_at m (at_dir ++ [c])) as [[md content|md]|] eqn:Hnode.
    + simplify_eq. apply same_files_refl.
    + eauto.
    + destruct (node_at m at_dir) as [[md content|md]|];
        [simplify_eq; apply same_files_refl| |simplify_eq; apply same_files_refl].
      destruct (writable md); [|simplify_eq; apply same_files_refl].
      eapply same_files_trans; [|by eapply IH]. by apply same_files_new_dir.
Qed.

(** After a successful [makedirs] every directory of the chain exists. *)
Lemma makedirs_from_ok at_dir todo m m' :
  makedirs_from at_dir todo m = (Ok tt, m') →
  ∀ i, (1 ≤ i ≤ length todo)%nat →
    is_dir (node_at m' (at_dir ++ take i todo)) = true.
Proof.
  revert at_dir m. induction todo as [|c rest IH]; intros at_dir m Hrun i Hi;
    simpl in *; [lia|].
  assert (∀ m1, makedirs_from (at_dir ++ [c]) rest m1 = (Ok tt, m') →
                is_dir (node_at m1 (at_dir ++ [c])) = true →
                is_dir (node_at m' (at_dir ++ take i (c :: rest))) = true) as Hstep.
  { intros m1 Hrest Hdir. destruct i as [|i]; [lia|]. simpl.
    destruct (decide (i = 0%nat)) as [->|Hi0].
    - rewrite take_0. destruct (node_at m1 (at_dir ++ [c])) as [n|] eqn:Hn; [|done].
      by rewrite (makedirs_from_keeps _ _ _ _ _ Hrest _ _ Hn).
    - rewrite (cons_middle c at_dir), app_assoc. eapply IH; [done|lia]. }
  destruct (node_at m (at_dir ++ [c])) as [[md content|md]|] eqn:Hnode.
  - by simplify_eq.
  - eapply Hstep; [done|]. by rewrite Hnode.
  - destruct (node_at m at_dir) as [[md content|md]|]; [by simplify_eq| |by simplify_eq].
    destruct (writable md); [|by simplify_eq].
    eapply Hstep; [done|]. by rewrite node_at_insert_eq.
Qed.

(** [exist_ok=True]: a chain of directories that is already there is
    left as it is. *)
Lemma makedirs_from_existing at_dir todo m :
  (∀ i, (1 ≤ i ≤ length todo)%nat →
     is_dir (node_at m (at_dir ++ take i todo)) = true) →
  makedirs_from at_dir todo m = (Ok tt, m).
Proof.
  revert at_dir. induction todo as [|c rest IH]; intros at_dir Hdirs; [done|].
  simpl. pose proof (Hdirs 1%nat) as H1. simpl in H1. rewrite take_0 in H1.
  destruct (node_at m (at_dir ++ [c])) as [[md content|md]|] eqn:Hnode;
    [by specialize (H1 ltac:(lia))| |by specialize (H1 ltac:(lia))].
  apply IH. intros i Hi. specialize (Hdirs (S i) ltac:(simpl; lia)).
  simpl in Hdirs. by rewrite (cons_middle c at_dir), app_assoc in Hdirs.
Qed.

(** The errors of [makedirs]. *)
Lemma makedirs_from_raises at_dir todo m e m' :
  node_at m at_dir ≠ None →
  makedirs_from at_dir todo m = (Raise e, m') →
  e = FileExistsError ∨ e = NotADirectoryError ∨ e = PermissionError.
Proof.
  revert at_dir m. induction todo as [|c rest IH]; intros at_dir m Hat Hrun;
    simpl in Hrun; [done|].
  destruct (node_at m (at_dir ++ [c])) as [[md content|md]|] eqn:Hnode.
  - simplify_eq. destruct rest; auto.
  - eapply IH; [|done]. by rewrite Hnode.
  - destruct (node_at m at_dir) as [[md content|md]|]; [simplify_eq; auto| |done].
    destruct (writable md); [|simplify_eq; auto].
    eapply IH; [|done]. by rewrite node_at_insert_eq.
Qed.

Lemma node_at_root m : node_at m [] ≠ None.
Proof. unfold node_at. by destruct (m !! []). Qed.

End FileSystem.

(** ** The Tagger *)

Section Tagger.
Context {text : Type} `{!JsonLib text}.
Implicit Types (w : world text) (p : str) (m : gmap (list str) (node text)).

Lemma missing_cases m k :
  missing m k = NotADirectoryError ∨ missing m k = FileNotFoundError.
Proof. unfold missing. destruct (below_a_file m k); auto. Qed.

Lemma readable_at_errors m k e :
  readable_at m k = inl e →
  e = PermissionError ∨ e = IsADirectoryError ∨ e = NotADirectoryError
  ∨ e = FileNotFoundError.
Proof.
  unfold readable_at. destruct (missing_cases m k) as [Hm|Hm].
  all: repeat case_match; intros; simplify_eq; rewrite ?Hm; auto.
Qed.

Lemma writable_at_errors m k e :
  writable_at m k = inl e →
  e = PermissionError ∨ e = IsADirectoryError ∨ e = NotADirectoryError
  ∨ e = FileNotFoundError.
Proof.
  unfold writable_at. destruct (missing_cases m k) as [Hm|Hm].
  all: repeat case_match; intros; simplify_eq; rewrite ?Hm; auto.
Qed.

Lemma readable_at_content m k content :
  readable_at m k = inr content ↔
  ∃ md, node_at m k = Some (File md content) ∧ readable md = true.
Proof.
  unfold readable_at. split.
  - repeat case_match; intros; simplify_eq. eauto.
  - intros (md & -> & ->). done.
Qed.

Lemma readable_at_not_found m k :
  readable_at m k = inl FileNotFoundError →
  node_at m k = None ∧ below_a_file m k = false.
Proof.
  unfold readable_at, missing. repeat case_match; intros; simplify_eq. done.
Qed.

(** A file opened for writing keeps its mode, a new one can be written. *)
Lemma writable_at_mode m k md :
  writable_at m k = inr md →
  writable md = true
  ∧ (node_at m k = None ∨ ∃ old, node_at m k = Some (File md old)).
Proof.
  unfold writable_at. repeat case_match; intros; simplify_eq; eauto.
Qed.

Lemma writable_at_file m k md old :
  node_at m k = Some (File md old) → writable md = true →
  writable_at m k = inr md.
Proof. unfold writable_at. by intros -> ->. Qed.

(** Below an existing directory a file can be opened for writing unless
    permissions forbid it or a directory has its name. *)
Lemma writable_at_in_dir m k name e :
  is_dir (node_at m k) = true →
  writable_at m (k ++ [name]) = inl e →
  e = PermissionError ∨ e = IsADirectoryError.
Proof.
  unfold writable_at, parent. rewrite length_app. simpl.
  replace (length k + 1 - 1)%nat with (length k) by lia.
  rewrite take_app_length.
  destruct (node_at m k) as [[]|]; [done| |done]. intros _.
  repeat case_match; intros; simplify_eq; auto.
Qed.

End Tagger.

(** The Tagger is the chain of its stages, on any console. *)
Section Stages.
Context {text : Type} `{!JsonLib text} `{!Console}.
Implicit Types (w : world text) (p : str) (m : gmap (list str) (node text)).

Lemma tagger_unfold p w : add_ids_to_json p w = tagger_steps p w.
Proof.
  unfold add_ids_to_json, tagger_steps, try_except, write_json, mbind, M_bind,
    mret, M_ret, os_makedirs, read_json, open_for_writing, print, raise, set_fs,
    failed; simpl.
  destruct (makedirs_from [] (key (cwd w) (output_dir p)) (fs w))
    as [[[]|e] m1] eqn:Hmk; simpl.
  2:{ destruct (makedirs_from_raises _ _ _ _ _ (node_at_root _) Hmk)
        as [->|[->| ->]]; simpl; by destruct (can_print _). }
  destruct (readable_at m1 (key (cwd w) p)) as [e|content] eqn:Hread; simpl.
  { destruct (readable_at_errors _ _ _ Hread) as [->|[->|[->| ->]]]; simpl;
      by destruct (can_print _). }
  destruct (json_load content) as [data| |]; simpl;
    [|by destruct (can_print _)..].
  destruct data; simpl;
    try (destruct (can_print (ErrorNotAList (filename p))); simpl; [done|];
         by destruct (can_print _)).
  destruct (json_dump (JList (add_ids items))) as [written|partial]; simpl.
  - destruct (writable_at m1 (key (cwd w) (output_filepath p))) as [e|md] eqn:Hwr;
      simpl.
    + destruct (writable_at_errors _ _ _ Hwr) as [->|[->|[->| ->]]]; simpl;
        by destruct (can_print _).
    + destruct (can_print (SuccessProcessed (filename p))); simpl;
        [|by destruct (can_print _)].
      destruct (can_print (SavedTo (output_filepath p))); simpl;
        [|by destruct (can_print _)].
      by rewrite <- app_assoc.
  - destruct (writable_at m1 (key (cwd w) (output_filepath p))) as [e|md] eqn:Hwr;
      simpl; [|by destruct (can_print _)].
    destruct (writable_at_errors _ _ _ Hwr) as [->|[->|[->| ->]]]; simpl;
      by destruct (can_print _).
Qed.

(** After [os.makedirs] the output directory is there. *)
Lemma output_dir_made p w m1 :
  makedirs_from [] (key (cwd w) (output_dir p)) (fs w) = (Ok tt, m1) →
  is_dir (node_at m1 (key (cwd w) (output_dir p))) = true.
Proof.
  intros Hmk.
  pose proof (makedirs_from_ok _ _ _ _ Hmk (length (key (cwd w) (output_dir p))))
    as Hdir.
  rewrite firstn_all in Hdir. apply Hdir.
  rewrite key_output_dir, length_app. simpl. lia.
Qed.

End Stages.

(** Cases of a run on any console: every leaf of [tagger_steps], the
    console asked about each line on the way. *)
Ltac console_leaves p w m1 Hmk :=
  rewrite ?tagger_unfold; unfold tagger_steps, failed; simpl;
  destruct (makedirs_from [] (key (cwd w) (output_dir p)) (fs w))
    as [[[]|?e] m1] eqn:Hmk; simpl;
  [destruct (readable_at m1 (key (cwd w) p)) as [?e|?content] eqn:?Hread; simpl;
   [|lazymatch goal with
     | |- context [json_load ?c] =>
         destruct (json_load c) as [[]| |] eqn:?Hload; simpl
     end;
     try (destruct (writable_at m1 (key (cwd w) (output_filepath p)))
            as [?e|?md] eqn:?Hwr; simpl;
          [|lazymatch goal with
            | |- context [json_dump ?d] =>
                destruct (json_dump d) as [?written|?partial] eqn:?Hdump; simpl
            end])]
  |];
  repeat lazymatch goal with
         | |- context [can_print ?l] =>
             destruct (can_print l) eqn:?Hprint; simpl
         end.

(** *** The runs on a console that shows every line *)

Lemma print_full {text} l (w : world text) :
  print l w = (Ok tt, World (fs w) (cwd w) (stdin w) (stdout w ++ [l])).
Proof. done. Qed.

Section Runs.
Context {text : Type} `{!JsonLib text}.
Implicit Types (w : world text) (p : str) (m : gmap (list str) (node text)).

(** Cases of a run, for the proofs below: [tac] is run on every leaf of
    [tagger_steps]. *)
Ltac tagger_leaves p w m1 Hmk :=
  rewrite ?tagger_unfold; unfold tagger_steps, failed; simpl;
  destruct (makedirs_from [] (key (cwd w) (output_dir p)) (fs w))
    as [[[]|?e] m1] eqn:Hmk; simpl;
  [destruct (readable_at m1 (key (cwd w) p)) as [?e|?content] eqn:?Hread; simpl;
   [|lazymatch goal with
     | |- context [json_load ?c] =>
         destruct (json_load c) as [[]| |] eqn:?Hload; simpl
     end;
     try (destruct (writable_at m1 (key (cwd w) (output_filepath p)))
            as [?e|?md] eqn:?Hwr; simpl;
          [|lazymatch goal with
            | |- context [json_dump ?d] =>
                destruct (json_dump d) as [?written|?partial] eqn:?Hdump; simpl
            end])]
  |].

(** The Tagger returns, whatever happens inside. *)
Lemma tagger_returns p w :
  ∃ r w', add_ids_to_json p w = (Ok r, w')
          ∧ (r = None ∨ r = Some (output_filepath p)).
Proof. tagger_leaves p w m1 Hmk; eauto. Qed.

(** It neither moves the process nor reads the console. *)
Lemma tagger_frame p w :
  cwd (add_ids_to_json p w).2 = cwd w ∧ stdin (add_ids_to_json p w).2 = stdin w.
Proof. tagger_leaves p w m1 Hmk; eauto. Qed.

(** What a successful run has done. *)
Lemma tagger_success p w out w' :
  add_ids_to_json p w = (Ok (Some out), w') →
  ∃ m1 md content data_list written md',
    makedirs_from [] (key (cwd w) (output_dir p)) (fs w) = (Ok tt, m1)
    ∧ node_at (fs w) (key (cwd w) p) = Some (File md content)
    ∧ readable md = true
    ∧ json_load content = LoadOk (JList data_list)
    ∧ json_dump (JList (add_ids data_list)) = DumpOk written
    ∧ out = output_filepath p
    ∧ writable_at m1 (key (cwd w) out) = inr md'
    ∧ w' = World (<[key (cwd w) out := File md' written]> m1) (cwd w) (stdin w)
             (stdout w ++ [SuccessProcessed (filename p); SavedTo out]).
Proof.
  tagger_leaves p w m1 Hmk; intros; simplify_eq.
  apply readable_at_content in Hread as (md0 & Hnode & Hreadable).
  apply (makedirs_from_same_files _ _ _ _ _ Hmk) in Hnode.
  by eexists m1, md0, content, items, written, md.
Qed.

(** A run changes regular files only when it has parsed a list. *)
Lemma tagger_writes_after_validation p w :
  same_files (fs w) (fs (add_ids_to_json p w).2)
  ∨ ∃ md content data_list,
      node_at (fs w) (key (cwd w) p) = Some (File md content)
      ∧ readable md = true
      ∧ json_load content = LoadOk (JList data_list).
Proof.
  tagger_leaves p w m1 Hmk;
    try (left; by eapply makedirs_from_same_files).
  all: right; apply readable_at_content in Hread as (md0 & Hnode & Hreadable);
    apply (makedirs_from_same_files _ _ _ _ _ Hmk) in Hnode;
    by eexists _, _, _.
Qed.

Lemma keeps_kinds_refl m : keeps_kinds m m.
Proof. intros k n Hk. eauto. Qed.

Lemma keeps_kinds_trans m1 m2 m3 :
  keeps_kinds m1 m2 → keeps_kinds m2 m3 → keeps_kinds m1 m3.
Proof.
  intros H12 H23 k n Hk. destruct (H12 k n Hk) as (n2 & Hk2 & Hf2).
  destruct (H23 k n2 Hk2) as (n3 & Hk3 & Hf3). exists n3. split; congruence.
Qed.

Lemma keeps_kinds_write m k md written :
  writable_at m k = inr md → keeps_kinds m (<[k := File md written]> m).
Proof.
  intros Hwr k' n Hk'. rewrite node_at_insert. case_decide as Heq; [|eauto].
  subst k'. apply writable_at_mode in Hwr as [_ [Hnone|[old Hold]]]; [congruence|].
  rewrite Hold in Hk'. simplify_eq. eauto.
Qed.

(** No run turns a file into a directory or removes a node. *)
Lemma tagger_keeps_kinds p w : keeps_kinds (fs w) (fs (add_ids_to_json p w).2).
Proof.
  assert (∀ r m1, makedirs_from [] (key (cwd w) (output_dir p)) (fs w) = (r, m1) →
                  keeps_kinds (fs w) m1) as Hmk1.
  { intros r m1 Hmk k n Hk. exists n. split; [|done].
    by eapply makedirs_from_keeps. }
  tagger_leaves p w m1 Hmk; try (by eapply Hmk1).
  all: eapply keeps_kinds_trans; [by eapply Hmk1|by apply keeps_kinds_write].
Qed.

(** *** Where the run is a success *)

(** C1. When the parsed content of the input file is a list, the list
    the Tagger writes has the same length; the element at index [i] is
    the input element with its field [id] set to [i + 1] when that
    element is a mapping, and the input element itself when it is not,
    so that an element that is not a mapping still takes up its
    index. *)
Theorem tagger_numbers_by_position p w out w' :
  add_ids_to_json p w = (Ok (Some out), w') →
  ∃ md content data_list md' written,
    node_at (fs w) (key (cwd w) p) = Some (File md content)
    ∧ json_load content = LoadOk (JList data_list)
    ∧ node_at (fs w') (key (cwd w) out) = Some (File md' written)
    ∧ json_dump (JList (add_ids data_list)) = DumpOk written
    ∧ length (add_ids data_list) = length data_list
    ∧ ∀ (i : nat) entry, data_list !! i = Some entry →
        match entry with
        | JDict d =>
            add_ids data_list !! i
            = Some (JDict (dict_set (lit "id") (JInt (Z.of_nat i + 1)) d))
            ∧ dict_get (lit "id") (dict_set (lit "id") (JInt (Z.of_nat i + 1)) d)
              = Some (JInt (Z.of_nat i + 1))
        | _ => add_ids data_list !! i = Some entry
        end.
Proof.
  intros Hrun.
  destruct (tagger_success _ _ _ _ Hrun)
    as (m1 & md & content & data_list & written & md' & Hmk & Hin & _ & Hload
        & Hdump & -> & _ & ->).
  exists md, content, data_list, md', written. split_and!; try done.
  - simpl. apply node_at_insert_eq.
  - apply add_ids_length.
  - intros i entry Hi. rewrite add_ids_lookup, Hi. simpl.
    destruct entry; simpl; try done. split; [done|]. apply dict_get_set_eq.
Qed.

(** C2. A field [id] that a mapping already has is overwritten: on
    [[{"id": 99}]] the loop gives [[{"id": 1}]]; in every successful
    run the mapping at index [i] is written with [id] equal to [i + 1]
    whatever it held under [id] before, its other fields and their
    order untouched, and no second [id] field is added. *)
Theorem tagger_overwrites_existing_id p w out w' :
  add_ids_to_json p w = (Ok (Some out), w') →
  add_ids [JDict [(lit "id", JInt 99)]] = [JDict [(lit "id", JInt 1)]]
  ∧ ∃ md content data_list md' written,
      node_at (fs w) (key (cwd w) p) = Some (File md content)
      ∧ json_load content = LoadOk (JList data_list)
      ∧ node_at (fs w') (key (cwd w) out) = Some (File md' written)
      ∧ json_dump (JList (add_ids data_list)) = DumpOk written
      ∧ ∀ (i : nat) d, data_list !! i = Some (JDict d) →
          ∃ d', add_ids data_list !! i = Some (JDict d')
                ∧ dict_get (lit "id") d' = Some (JInt (Z.of_nat i + 1))
                ∧ dict_remove (lit "id") d' = dict_remove (lit "id") d
                ∧ (∀ key, key ≠ lit "id" → dict_get key d' = dict_get key d)
                ∧ (is_Some (dict_get (lit "id") d) → length d' = length d).
Proof.
  intros Hrun. split; [done|].
  destruct (tagger_success _ _ _ _ Hrun)
    as (m1 & md & content & data_list & written & md' & Hmk & Hin & _ & Hload
        & Hdump & -> & _ & ->).
  exists md, content, data_list, md', written. split_and!; try done.
  - simpl. apply node_at_insert_eq.
  - intros i d Hi. eexists. rewrite add_ids_lookup, Hi. simpl.
    split_and!; [done|..].
    + apply dict_get_set_eq.
    + apply dict_remove_set.
    + intros key Hkey. by apply dict_get_set_ne.
    + clear. induction d as [|[k v] rest IH]; simpl.
      * by intros [? ?].
      * case_decide; simpl; [done|]. intros Hsome. f_equal. by apply IH.
Qed.

(** *** Where the run is a failure *)


(** *** Round trip and repeated runs *)

(** C7. Provided the [json] library reads back what it writes: after
    a successful run the output file parses to a list of the length of
    the parsed input; element by element it is the input, except that a
    mapping has its field [id] set: with [id] removed on both sides the
    two mappings have the same fields in the same order. *)
Theorem tagger_round_trip p w out w' :
  (∀ data written, json_dump data = DumpOk written →
                   json_load written = LoadOk data) →
  add_ids_to_json p w = (Ok (Some out), w') →
  ∃ md content data_list md' written output_list,
    node_at (fs w) (key (cwd w) p) = Some (File md content)
    ∧ json_load content = LoadOk (JList data_list)
    ∧ node_at (fs w') (key (cwd w) out) = Some (File md' written)
    ∧ json_load written = LoadOk (JList output_list)
    ∧ length output_list = length data_list
    ∧ ∀ (i : nat) entry, data_list !! i = Some entry →
        ∃ entry', output_list !! i = Some entry'
          ∧ match entry with
            | JDict d =>
                ∃ d', entry' = JDict d'
                      ∧ dict_remove (lit "id") d' = dict_remove (lit "id") d
                      ∧ dict_get (lit "id") d' = Some (JInt (Z.of_nat i + 1))
            | _ => entry' = entry
            end.
Proof.
  intros Hjson Hrun.
  destruct (tagger_success _ _ _ _ Hrun)
    as (m1 & md & content & data_list & written & md' & Hmk & Hin & _ & Hload
        & Hdump & -> & _ & ->).
  exists md, content, data_list, md', written, (add_ids data_list).
  split_and!; try done.
  - simpl. apply node_at_insert_eq.
  - by apply Hjson.
  - apply add_ids_length.
  - intros i entry Hi. rewrite add_ids_lookup, Hi. simpl. eexists. split; [done|].
    destruct entry; simpl; try done. eexists. split_and!; [done|..].
    + apply dict_remove_set.
    + apply dict_get_set_eq.
Qed.

(** A run whose stages all go through is a success. *)
Lemma tagger_succeeds p w m1 content data_list md written :
  makedirs_from [] (key (cwd w) (output_dir p)) (fs w) = (Ok tt, m1) →
  readable_at m1 (key (cwd w) p) = inr content →
  json_load content = LoadOk (JList data_list) →
  writable_at m1 (key (cwd w) (output_filepath p)) = inr md →
  json_dump (JList (add_ids data_list)) = DumpOk written →
  add_ids_to_json p w
  = (Ok (Some (output_filepath p)),
     World (<[key (cwd w) (output_filepath p) := File md written]> m1)
       (cwd w) (stdin w)
       (stdout w ++ [SuccessProcessed (filename p); SavedTo (output_filepath p)])).
Proof.
  intros Hmk Hread Hload Hwr Hdump. rewrite tagger_unfold. unfold tagger_steps.
  by rewrite Hmk, Hread, Hload, Hwr, Hdump.
Qed.

(** C8. The Tagger is a function of its input: after a successful run,
    a second run on the same path succeeds with the same output path
    and leaves the file system as the first run left it; and whatever
    the output file holds when the second run starts, the run replaces
    it by the same content, so an earlier output is neither kept nor
    merged. *)
Theorem tagger_rerun_overwrites p w out w1 :
  add_ids_to_json p w = (Ok (Some out), w1) →
  ∃ md written,
    node_at (fs w1) (key (cwd w1) out) = Some (File md written)
    ∧ add_ids_to_json p w1
      = (Ok (Some out),
         World (fs w1) (cwd w1) (stdin w1)
           (stdout w1 ++ [SuccessProcessed (filename p); SavedTo out]))
    ∧ ∀ stale,
        add_ids_to_json p
          (set_fs (<[key (cwd w1) out := File md stale]> (fs w1)) w1)
        = (Ok (Some out),
           World (fs w1) (cwd w1) (stdin w1)
             (stdout w1 ++ [SuccessProcessed (filename p); SavedTo out])).
Proof.
  intros Hrun.
  destruct (tagger_success _ _ _ _ Hrun)
    as (m1 & md & content & data_list & written & md' & Hmk & Hin & Hreadable
        & Hload & Hdump & -> & Hwr & ->).
  set (ko := key (cwd w) (output_filepath p)) in *.
  exists md', written. simpl. fold ko.
  assert (∀ stale,
            add_ids_to_json p
              (World (<[ko := File md' stale]> (<[ko := File md' written]> m1))
                 (cwd w) (stdin w)
                 (stdout w ++ [SuccessProcessed (filename p);
                               SavedTo (output_filepath p)]))
            = (Ok (Some (output_filepath p)),
               World (<[ko := File md' written]> m1) (cwd w) (stdin w)
                 ((stdout w ++ [SuccessProcessed (filename p);
                                SavedTo (output_filepath p)])
                  ++ [SuccessProcessed (filename p);
                      SavedTo (output_filepath p)]))) as Hagain.
  { intros stale. rewrite insert_insert_eq.
    erewrite (tagger_succeeds p _ (<[ko := File md' stale]> m1) content data_list
                md' written); simpl; fold ko; try done.
    - by rewrite insert_insert_eq.
    - apply makedirs_from_existing. intros i Hi. simpl.
      rewrite node_at_insert_ne.
      + by apply (makedirs_from_ok _ _ _ _ Hmk).
      + unfold ko. rewrite key_output_filepath. intros Heq.
        apply (f_equal length) in Heq. rewrite length_app, length_take in Heq.
        simpl in Heq. lia.
    - apply readable_at_content. exists md. split; [|done].
      rewrite node_at_insert_ne by apply key_output_ne.
      by eapply makedirs_from_keeps.
    - apply (writable_at_file _ _ _ stale); [apply node_at_insert_eq|].
      by apply writable_at_mode in Hwr as [? _]. }
  split_and!.
  - apply node_at_insert_eq.
  - specialize (Hagain written). by rewrite insert_insert_eq in Hagain.
  - intros stale. apply Hagain.
Qed.

(** *** The output path and its directory *)

Lemma makedirs_from_skip (at_dir made todo : list str) m :
  (∀ i, (1 ≤ i ≤ length made)%nat →
     is_dir (node_at m (at_dir ++ take i made)) = true) →
  makedirs_from at_dir (made ++ todo) m = makedirs_from (at_dir ++ made) todo m.
Proof.
  revert at_dir. induction made as [|c made IH]; intros at_dir Hdirs; simpl.
  - by rewrite app_nil_r.
  - pose proof (Hdirs 1%nat ltac:(simpl; lia)) as H1. simpl in H1.
    rewrite take_0 in H1.
    destruct (node_at m (at_dir ++ [c])) as [[]|]; [done| |done].
    replace (at_dir ++ c :: made) with ((at_dir ++ [c]) ++ made)
      by (by rewrite <- app_assoc).
    apply IH. intros i Hi. specialize (Hdirs (S i) ltac:(simpl; lia)).
    simpl in Hdirs. by rewrite <- app_assoc.
Qed.

Lemma makedirs_existing name w :
  dirs_down_to (fs w) (key (cwd w) name) = true →
  os_makedirs name w = (Ok tt, w).
Proof.
  intros Hdirs. unfold os_makedirs. rewrite makedirs_from_existing.
  - by destruct w.
  - intros i Hi. simpl. apply (proj1 (dirs_down_to_spec _ _) Hdirs). lia.
Qed.

Lemma makedirs_creates name w at_dir c md :
  key (cwd w) name = at_dir ++ [c] →
  dirs_down_to (fs w) at_dir = true →
  node_at (fs w) at_dir = Some (Dir md) → writable md = true →
  node_at (fs w) (at_dir ++ [c]) = None →
  os_makedirs name w = (Ok tt, set_fs (<[at_dir ++ [c] := Dir rw]> (fs w)) w).
Proof.
  intros Hkey Hdirs Hparent Hwritable Hnone. unfold os_makedirs.
  rewrite Hkey, makedirs_from_skip.
  - simpl. by rewrite Hnone, Hparent, Hwritable.
  - intros i Hi. simpl. apply (proj1 (dirs_down_to_spec _ _) Hdirs). lia.
Qed.


End Runs.

(** ** The Batch Runner *)

Section BatchRunner.
Context {text : Type} `{!JsonLib text}.
Implicit Types (w : world text) (m : gmap (list str) (node text)).

Lemma entry_name_spec (k k' : list str) name :
  entry_name k k' = Some name ↔ k' = k ++ [name].
Proof.
  unfold entry_name. split.
  - destruct (last k') as [x|]; [|done]. case_decide; [|done]. by intros [= ->].
  - intros ->. rewrite last_snoc. by rewrite decide_True.
Qed.

(** [os.listdir] gives the names of the entries of the directory. *)
Lemma listdir_names folder w names :
  (os_listdir folder w).1 = Ok names →
  (os_listdir folder w).2 = w
  ∧ is_dir (node_at (fs w) (key (cwd w) folder)) = true
  ∧ ∀ f, f ∈ names ↔ is_Some (fs w !! (key (cwd w) folder ++ [f])).
Proof.
  unfold os_listdir.
  destruct (node_at (fs w) (key (cwd w) folder)) as [[|md]|]; [done| |done].
  destruct (readable md); [|done]. simpl. intros [= <-]. split_and!; [done..|].
  intros f. rewrite list_elem_of_omap. split.
  - intros ([k' n] & Hin & Hname). apply elem_of_map_to_list in Hin.
    simpl in Hname. apply entry_name_spec in Hname as ->. eauto.
  - intros [n Hn]. exists (key (cwd w) folder ++ [f], n). split.
    + by apply elem_of_map_to_list.
    + by apply entry_name_spec.
Qed.

Lemma NoDup_omap_inj {A B} (f : A → option B) (l : list A) :
  NoDup l →
  (∀ x y z, x ∈ l → y ∈ l → f x = Some z → f y = Some z → x = y) →
  NoDup (omap f l).
Proof.
  induction 1 as [|x l Hx Hl IH]; intros Hinj; [constructor|]. simpl.
  assert (NoDup (omap f l)) as Hrest.
  { apply IH. intros y1 y2 z ? ?. apply Hinj; by right. }
  destruct (f x) as [z|] eqn:Hfx; [|done]. constructor; [|done].
  intros (y & Hy & Hfy)%list_elem_of_omap.
  assert (x = y) as -> by (eapply Hinj; [by left|by right|done..]). done.
Qed.

(** A listing has every entry once. *)
Lemma listdir_NoDup folder w names :
  (os_listdir folder w).1 = Ok names → NoDup names.
Proof.
  unfold os_listdir.
  destruct (node_at (fs w) (key (cwd w) folder)) as [[|md]|]; [done| |done].
  destruct (readable md); [|done]. simpl. intros [= <-].
  apply NoDup_omap_inj; [apply NoDup_map_to_list|].
  intros [k1 n1] [k2 n2] z Hin1 Hin2 Hz1 Hz2. simpl in *.
  apply entry_name_spec in Hz1, Hz2. subst k1 k2.
  apply elem_of_map_to_list in Hin1, Hin2. congruence.
Qed.

Lemma well_formed_names m k n :
  well_formed m = true → m !! k = Some n → Forall (λ c, valid_name c = true) k.
Proof.
  unfold well_formed. rewrite forallb_forall. intros Hwf Hk.
  apply elem_of_map_to_list, list_elem_of_In, Hwf in Hk. simpl in Hk.
  apply Forall_forall. intros c Hc. rewrite forallb_forall in Hk.
  by apply Hk, list_elem_of_In.
Qed.

(** A listed name, joined to the folder, is the path of that entry. *)
Lemma listed_entry folder w names f :
  well_formed (fs w) = true →
  (os_listdir folder w).1 = Ok names → f ∈ names →
  key (cwd w) (os_path_join folder f) = key (cwd w) folder ++ [f]
  ∧ node_at (fs w) (key (cwd w) folder ++ [f]) ≠ None.
Proof.
  intros Hwf Hlist Hf. apply listdir_names in Hlist as (_ & _ & Hnames).
  apply Hnames in Hf as [n Hn].
  pose proof (well_formed_names _ _ _ Hwf Hn) as Hvalid.
  rewrite Forall_app, Forall_singleton in Hvalid. destruct Hvalid as [_ Hvalid].
  split.
  - rewrite key_join; [by apply enter_valid_name|].
    by apply valid_name_spec in Hvalid as (_ & _ & _ & ?).
  - unfold node_at. by rewrite Hn.
Qed.

Lemma batch_loop folder files w :
  for_each files
    (λ file_name,
       is_a_file ← os_path_isfile (os_path_join folder file_name);
       if is_a_file : bool
       then add_ids_to_json (os_path_join folder file_name);; mret tt
       else mret tt) w
  = (Ok tt, foldl (batch_turn folder) w files).
Proof.
  revert w. induction files as [|f files IH]; intros w; [done|].
  simpl. unfold mbind, M_bind at 1. unfold mbind, M_bind at 1.
  unfold os_path_isfile at 1. unfold batch_turn at 2.
  destruct (is_file (node_at (fs w) (key (cwd w) (os_path_join folder f)))).
  - unfold mbind, M_bind at 1.
    destruct (tagger_returns (os_path_join folder f) w) as (r & w' & Hrun & _).
    rewrite Hrun. simpl. apply IH.
  - simpl. apply IH.
Qed.

(** The loop calls the Tagger on the entries that were regular files
    when the folder was listed: no run changes what the later entries
    are. *)
Lemma batch_turns folder files w0 w :
  cwd w = cwd w0 → keeps_kinds (fs w0) (fs w) →
  (∀ f, f ∈ files →
     node_at (fs w0) (key (cwd w0) (os_path_join folder f)) ≠ None) →
  foldl (batch_turn folder) w files
  = tag_all folder
      (List.filter
         (λ f, is_file (node_at (fs w0) (key (cwd w0) (os_path_join folder f))))
         files) w.
Proof.
  revert w. induction files as [|f files IH]; intros w Hcwd Hkinds Hthere;
    [done|].
  simpl. unfold batch_turn at 2. rewrite Hcwd.
  destruct (node_at (fs w0) (key (cwd w0) (os_path_join folder f))) as [n|] eqn:Hn.
  2:{ exfalso. eapply Hthere; [by left|done]. }
  destruct (Hkinds _ _ Hn) as (n' & Hn' & Hsame). rewrite Hn', Hsame.
  assert (∀ f', f' ∈ files →
            node_at (fs w0) (key (cwd w0) (os_path_join folder f')) ≠ None)
    as Hrest by (intros f' Hf'; apply Hthere; by right).
  destruct (is_file (Some n)); simpl.
  - apply IH; [| |done].
    + rewrite <- Hcwd. apply tagger_frame.
    + eapply keeps_kinds_trans; [done|apply tagger_keeps_kinds].
  - by apply IH.
Qed.

Lemma filter_filter_andb {A} (keep_a keep_b : A → bool) l :
  List.filter keep_b (List.filter keep_a l)
  = List.filter (λ x, keep_a x && keep_b x) l.
Proof.
  induction l as [|x l IH]; [done|]. simpl.
  destruct (keep_a x); simpl; [|done]. destruct (keep_b x); by rewrite IH.
Qed.

(** What [process_folder] does in a folder it can list. *)
Lemma process_folder_runs folder w names :
  well_formed (fs w) = true →
  (os_listdir folder w).1 = Ok names →
  process_folder folder w
  = match List.filter has_json_suffix names with
    | [] =>
        (Ok tt,
         World (fs w) (cwd w) (stdin w)
           (stdout w ++ [ProcessingFolder folder; NoJsonFilesFound]))
    | _ =>
        (Ok tt,
         (print BatchComplete
            (tag_all folder
               (List.filter
                  (λ f, has_json_suffix f
                        && is_file (node_at (fs w) (key (cwd w) folder ++ [f])))
                  names)
               (print (ProcessingFolder folder) w).2)).2)
    end.
Proof.
  intros Hwf Hlist.
  set (w0 := (print (ProcessingFolder folder) w).2).
  assert (os_listdir folder w0 = (Ok names, w0)) as Hlist0.
  { revert Hlist. unfold os_listdir, w0. simpl.
    destruct (node_at (fs w) (key (cwd w) folder)) as [[|md]|]; [done| |done].
    destruct (readable md); [|done]. simpl. by intros [= <-]. }
  unfold process_folder. unfold mbind, M_bind at 1.
  change (print (ProcessingFolder folder) w) with (Ok tt, w0).
  unfold mbind, M_bind at 1. rewrite Hlist0.
  destruct (List.filter has_json_suffix names) as [|f files] eqn:Hfiles.
  { unfold print, w0. simpl. by rewrite <- app_assoc. }
  assert (foldl (batch_turn folder) w0 (f :: files)
          = tag_all folder
              (List.filter
                 (λ f, has_json_suffix f
                       && is_file (node_at (fs w) (key (cwd w) folder ++ [f])))
                 names) w0) as Hfold.
  { rewrite <- Hfiles.
    rewrite (batch_turns folder _ w0 w0); [|done|apply keeps_kinds_refl|].
    - f_equal. rewrite filter_filter_andb. apply filter_ext_in. intros f' Hf'.
      f_equal.
      destruct (listed_entry folder w names f' Hwf Hlist) as [Hkey _];
        [by apply list_elem_of_In|]. unfold w0. simpl. by rewrite Hkey.
    - intros f' Hf'. apply list_elem_of_In, filter_In in Hf' as [Hf' _].
      destruct (listed_entry folder w names f' Hwf Hlist) as [Hkey Hthere];
        [by apply list_elem_of_In|]. unfold w0. simpl. by rewrite Hkey. }
  pose proof (batch_loop folder (f :: files) w0) as Hloop.
  unfold mbind in Hloop. unfold M_bind at 1. rewrite Hloop, Hfold. done.
Qed.

(** A folder with no name ending in [.json]: the notice, and nothing
    written. *)
Lemma batch_empty_notice folder w names :
  well_formed (fs w) = true →
  (os_listdir folder w).1 = Ok names →
  List.filter has_json_suffix names = [] →
  process_folder folder w
  = (Ok tt,
     World (fs w) (cwd w) (stdin w)
       (stdout w ++ [ProcessingFolder folder; NoJsonFilesFound])).
Proof.
  intros Hwf Hlist Hnone.
  by rewrite (process_folder_runs folder w names Hwf Hlist), Hnone.
Qed.

End BatchRunner.

(** ** The Tagger and the Batch Runner on any console *)

Section AnyConsole.
Context {text : Type} `{!JsonLib text} `{!Console}.
Implicit Types (w : world text) (p : str) (m : gmap (list str) (node text)).

(** What leaves the Tagger: a result, or the error of a report that
    the console could not show. *)
Lemma tagger_outcome p w :
  match (add_ids_to_json p w).1 with
  | Ok r => r = None ∨ r = Some (output_filepath p)
  | Raise e =>
      e = UnicodeEncodeError ∧ ∃ e', can_print (reported p e') = false
  end.
Proof.
  console_leaves p w m1 Hmk; auto.
  all: split; [done|].
  all: first [by eexists|by exists JSONDecodeError|by exists OtherException
             |by exists UnicodeEncodeError].
Qed.

(** On a console that shows every line the program runs as it does on
    [full_console]. *)
Lemma tagger_shown p w :
  (∀ l, can_print l = true) →
  add_ids_to_json p w = @add_ids_to_json text _ full_console p w.
Proof.
  intros Hshown. console_leaves p w m1 Hmk; try done.
  all: by match goal with
          | Hp : can_print _ = false |- _ => rewrite Hshown in Hp
          end.
Qed.

Lemma tag_all_shown folder files w :
  (∀ l, can_print l = true) →
  tag_all folder files w = @tag_all text _ full_console folder files w.
Proof.
  intros Hshown. unfold tag_all. revert w.
  induction files as [|f files IH]; intros w; [done|]. simpl.
  by rewrite tagger_shown, IH.
Qed.

Lemma for_each_ext {A} (l : list A) (body body' : A → M unit) w :
  (∀ x w', body x w' = body' x w') → for_each l body w = for_each l body' w.
Proof.
  intros Hsame. revert w. induction l as [|x l IH]; intros w; [done|].
  simpl. unfold mbind, M_bind. rewrite Hsame.
  destruct (body' x w) as [[[]|e] w']; [apply IH|done].
Qed.

Lemma process_folder_shown folder w :
  (∀ l, can_print l = true) →
  process_folder folder w = @process_folder text _ full_console folder w.
Proof.
  intros Hshown. unfold process_folder, mbind, M_bind, print.
  rewrite Hshown. simpl.
  destruct (os_listdir folder _) as [[names|e] w1]; [|done].
  destruct (List.filter has_json_suffix names) as [|f files];
    [by rewrite Hshown|].
  rewrite (for_each_ext (f :: files) _
             (λ file_name,
                is_a_file ← os_path_isfile (os_path_join folder file_name);
                if is_a_file : bool
                then @add_ids_to_json text _ full_console
                       (os_path_join folder file_name);; mret tt
                else mret tt)).
  - unfold mbind, M_bind.
    destruct (for_each _ _ w1) as [[[]|e] w2]; [by rewrite Hshown|done].
  - intros x w'. unfold mbind, M_bind, os_path_isfile.
    destruct (is_file _); [|done]. by rewrite tagger_shown.
Qed.



End AnyConsole.

(** ** The Shell *)

Lemma endswith_spec s suffix :
  endswith s suffix = true ↔ ∃ before, s = before ++ suffix.
Proof.
  unfold endswith. rewrite bool_decide_eq_true. split.
  - intros Hdrop. exists (take (length s - length suffix) s).
    rewrite <- (take_drop (length s - length suffix) s) at 1. by rewrite Hdrop.
  - intros [before ->]. rewrite length_app.
    replace (length before + length suffix - length suffix)%nat
      with (length before) by lia.
    apply drop_app_length.
Qed.

Lemma lower_slash a b : lower (a ++ slash :: b) = lower a ++ slash :: lower b.
Proof. unfold lower. by rewrite map_app. Qed.

Lemma lower_no_slash s : slash ∉ s → slash ∉ lower s.
Proof.
  unfold lower. intros Hs Hin. apply list_elem_of_fmap in Hin as (c & Hc & Hin).
  assert (c = slash) as ->; [|done].
  destruct c as [[] [] [] [] [] [] [] []]; vm_compute in Hc; by simplify_eq.
Qed.

(** The test on the path is a test on the name of the file. *)
Lemma has_json_suffix_basename path :
  has_json_suffix path = has_json_suffix (os_path_basename path).
Proof.
  destruct (rfind_cases slash path) as [[Hnot _]|(a & b & -> & Hb & _)].
  { by rewrite basename_no_slash_path. }
  rewrite basename_after_slash by done. unfold has_json_suffix.
  rewrite lower_slash. apply lower_no_slash in Hb.
  apply eq_true_iff_eq. rewrite !endswith_spec. split.
  - intros [before Heq]. apply app_eq_inv in Heq as [(k & _ & Hk)|(k & -> & Hk)].
    + exfalso. apply (f_equal (λ l, bool_decide (slash ∈ l))) in Hk.
      rewrite (bool_decide_eq_true_2 (slash ∈ k ++ slash :: lower b)) in Hk
        by (rewrite elem_of_app, elem_of_cons; auto).
      by vm_compute in Hk.
    + destruct k as [|x k]; simplify_eq/=. by eexists.
  - intros [before ->]. exists (lower a ++ slash :: before).
    by rewrite <- app_assoc.
Qed.

Section Shell.
Context {text : Type} `{!JsonLib text}.
Implicit Types (w : world text).

(** C10. In single-file mode the Tagger runs exactly when the
    normalized path is a regular file and ends in [.json] whatever the
    case of the letters, which is a test on the name of the file;
    otherwise the only effect is the invalid-input message, which the
    Tagger never prints, so that an existing file without the extension
    never reaches the Tagger. *)
Theorem single_file_mode_gate user_input_path normalized_path w :
  single_file_mode user_input_path normalized_path w
  = (if is_file (node_at (fs w) (key (cwd w) normalized_path))
        && has_json_suffix (os_path_basename normalized_path)
     then (Ok tt, (add_ids_to_json normalized_path w).2)
     else (Ok tt,
           World (fs w) (cwd w) (stdin w)
             (stdout w ++ [InvalidFile user_input_path])))
  ∧ has_json_suffix (os_path_basename normalized_path)
    = endswith (lower normalized_path) (lit ".json")
  ∧ (∀ l, l ∈ stdout (add_ids_to_json normalized_path w).2 →
          l ≠ InvalidFile user_input_path ∨ l ∈ stdout w).
Proof.
  split_and!.
  - unfold single_file_mode, mbind, M_bind, os_path_isfile.
    rewrite <- has_json_suffix_basename.
    destruct (is_file (node_at (fs w) (key (cwd w) normalized_path))
              && has_json_suffix normalized_path); [|done].
    destruct (tagger_returns normalized_path w) as (r & w' & -> & _). done.
  - by rewrite <- has_json_suffix_basename.
  - intros l. rewrite tagger_unfold. unfold tagger_steps, failed. simpl.
    repeat case_match; simpl; rewrite elem_of_app;
      (intros [?|Hin]; [by right|left]).
    all: repeat (apply elem_of_cons in Hin as [->|Hin]); try done;
      try (by apply elem_of_nil in Hin).
    all: by match goal with |- context [reported _ ?e] => destruct e end.
Qed.

(** *** The loop ends

    No command but [input] touches the lines typed by the operator, and
    every turn of the loop that does not stop on an exception takes at
    least one of them: the number of turns [main] allows for is never
    reached. *)

Lemma batch_turns_stdin folder files w :
  stdin (foldl (batch_turn folder) w files) = stdin w.
Proof.
  revert w. induction files as [|f files IH]; intros w; [done|]. simpl.
  rewrite IH. unfold batch_turn. case_match; [|done]. apply tagger_frame.
Qed.

Lemma os_listdir_world folder w : (os_listdir folder w).2 = w.
Proof. unfold os_listdir. by repeat case_match. Qed.

Lemma process_folder_stdin folder w :
  stdin (process_folder folder w).2 = stdin w.
Proof.
  unfold process_folder, mbind. unfold M_bind at 1. rewrite print_full.
  set (w0 := World (fs w) (cwd w) (stdin w) (stdout w ++ [ProcessingFolder folder])).
  unfold M_bind at 1. pose proof (os_listdir_world folder w0) as Hworld.
  destruct (os_listdir folder w0) as [[names|e] w1]; simpl in Hworld; subst w1;
    [|done].
  destruct (List.filter has_json_suffix names) as [|f files]; [done|].
  pose proof (batch_loop folder (f :: files) w0) as Hloop.
  unfold mbind in Hloop. unfold M_bind at 1. rewrite Hloop. simpl.
  apply (batch_turns_stdin folder (f :: files) w0).
Qed.

Lemma single_file_mode_stdin user_input_path normalized_path w :
  stdin (single_file_mode user_input_path normalized_path w).2 = stdin w.
Proof.
  unfold single_file_mode, mbind, M_bind, os_path_isfile.
  case_match; [|done].
  destruct (tagger_returns normalized_path w) as (r & w' & Hrun & _).
  pose proof (tagger_frame normalized_path w) as [_ Hstdin].
  rewrite Hrun in *. done.
Qed.

Lemma directory_mode_stdin user_input_path normalized_path w :
  stdin (directory_mode user_input_path normalized_path w).2 = stdin w.
Proof.
  unfold directory_mode, mbind, M_bind, os_path_isdir.
  case_match; [|done]. apply process_folder_stdin.
Qed.

Lemma main_iteration_consumes w next w' :
  main_iteration w = (Ok next, w') →
  (length (stdin w') < length (stdin w))%nat.
Proof.
  unfold main_iteration, mbind.
  unfold M_bind at 1. rewrite print_full.
  unfold M_bind at 1. unfold input at 1. cbn [stdin fs cwd stdout].
  destruct (stdin w) as [|answer1 rest1] eqn:Hstdin; [done|].
  generalize (strip is_space (lower answer1)). intros mode_choice.
  unfold M_bind at 1. rewrite print_full.
  destruct (decide (mode_choice = lit "exit"));
    [by intros [= <- <-]; simpl; lia|].
  destruct (negb (bool_decide (mode_choice = lit "f")
                  || bool_decide (mode_choice = lit "d")));
    [by intros [= <- <-]; simpl; lia|].
  unfold M_bind at 1. unfold input at 1. cbn [stdin fs cwd stdout].
  destruct rest1 as [|answer2 rest2]; [done|].
  generalize (strip is_quote (strip is_space answer2)). intros user_input_path.
  destruct (decide (user_input_path = []));
    [by intros [= <- <-]; simpl; lia|].
  unfold M_bind at 1. unfold os_path_abspath at 1.
  unfold M_bind at 1.
  lazymatch goal with
  | |- context [(if ?c then single_file_mode ?u ?n else directory_mode ?u ?n) ?w0] =>
      assert (stdin ((if c then single_file_mode u n else directory_mode u n) w0).2
              = rest2) as Hkept
        by (destruct c; [rewrite single_file_mode_stdin
                        |rewrite directory_mode_stdin]; done);
      destruct ((if c then single_file_mode u n else directory_mode u n) w0)
        as [[[]|e] w3]
  end; [|done].
  simpl in Hkept.
  unfold M_bind at 1. rewrite print_full.
  unfold M_bind at 1. unfold input at 1. cbn [stdin fs cwd stdout].
  rewrite Hkept.
  destruct rest2 as [|answer3 rest3]; [done|].
  case_decide; intros [= <- <-]; simpl; lia.
Qed.

Lemma main_loop_turns turns extra w :
  (length (stdin w) < turns)%nat →
  main_loop (turns + extra) w = main_loop turns w.
Proof.
  revert w. induction turns as [|turns IH]; intros w Hlen; [lia|].
  simpl. unfold mbind, M_bind.
  destruct (main_iteration w) as [[[]|e] w'] eqn:Hturn; try done.
  apply IH. apply main_iteration_consumes in Hturn. lia.
Qed.

(** [main] with any larger number of turns is [main]. *)
Lemma main_never_runs_out extra w :
  (main_loop (S (length (stdin w)) + extra);; print Goodbye) w = main w.
Proof.
  unfold main, mbind, M_bind. by rewrite main_loop_turns by lia.
Qed.

End Shell.

(** * Runs on the sample world *)

Example output_filepath_absolute :
  output_filepath (lit "/srv/data/people.json")
  = lit "/srv/data/Outputs/people-mod.json".
Proof. reflexivity. Qed.

Example output_filepath_relative :
  output_filepath (lit "people.tar.json") = lit "Outputs/people.tar-mod.json".
Proof. reflexivity. Qed.


Example tagger_overwrites_id_example :
  let run := add_ids_to_json (lit "data/ids.json") sample_world in
  run.1 = Ok (Some (lit "data/Outputs/ids-mod.json"))
  ∧ fs run.2 !! [lit "srv"; lit "data"; lit "Outputs"; lit "ids-mod.json"]
    = Some (File rw (Some (JList [JDict [(lit "id", JInt 1)]]))).
Proof. vm_compute. done. Qed.

Example batch_continues_past_failures :
  stdout (process_folder (lit "data") sample_world).2
  = [ProcessingFolder (lit "data");
     ErrorNotAList (lit "object.JSON");
     SuccessProcessed (lit "ids.json");
     SavedTo (lit "data/Outputs/ids-mod.json");
     ErrorDecode (lit "data/broken.json");
     SuccessProcessed (lit "people.json");
     SavedTo (lit "data/Outputs/people-mod.json");
     BatchComplete].
Proof. vm_compute. reflexivity. Qed.

Lemma run_result {A B} (run : A * B) (a : A) : run.1 = a → run = (a, run.2).
Proof. intros <-. by destruct run. Qed.

Lemma sample_world_well_formed : well_formed (fs sample_world) = true.
Proof. vm_compute. reflexivity. Qed.

(** C5, on the code: a folder whose only entry with a [.json] name is a
    directory. No entry is a matching regular file and nothing is
    processed, yet the notice [NoJsonFilesFound] is not printed: the
    test of line 77 is on the names alone. *)
Theorem batch_notice_missed_when_only_directories_match :
  let folder := lit "/srv/only_dirs" in
  let run := process_folder folder sample_world in
  (os_listdir folder sample_world).1 = Ok [lit "x.json"]
  ∧ List.filter
      (λ f, has_json_suffix f
            && is_file (node_at (fs sample_world)
                          (key (cwd sample_world) folder ++ [f])))
      [lit "x.json"] = []
  ∧ run.1 = Ok tt
  ∧ stdout run.2 = [ProcessingFolder folder; BatchComplete]
  ∧ fs run.2 = fs sample_world.
Proof.
  intros folder run.
  assert ((os_listdir folder sample_world).1 = Ok [lit "x.json"]) as Hlist
    by (vm_compute; reflexivity).
  assert (List.filter
            (λ f, has_json_suffix f
                  && is_file (node_at (fs sample_world)
                                (key (cwd sample_world) folder ++ [f])))
            [lit "x.json"] = []) as Hnone by (vm_compute; reflexivity).
  split_and!; [done..| | |].
  all: unfold run;
    rewrite (process_folder_runs folder sample_world _
               sample_world_well_formed Hlist);
    change (List.filter has_json_suffix [lit "x.json"]) with [lit "x.json"];
    cbv beta iota; rewrite Hnone; reflexivity.
Qed.

(** ** Witnesses: the theorems at work on the sample world *)

Lemma tagger_numbers_by_position_witness :
  let p := lit "/srv/data/people.json" in
  let out := lit "/srv/data/Outputs/people-mod.json" in
  let w' := (add_ids_to_json p sample_world).2 in
  add_ids_to_json p sample_world = (Ok (Some out), w')
  ∧ ∃ md content data_list md' written,
      node_at (fs sample_world) (key (cwd sample_world) p)
      = Some (File md content)
      ∧ json_load content = LoadOk (JList data_list)
      ∧ node_at (fs w') (key (cwd sample_world) out) = Some (File md' written)
      ∧ json_dump (JList (add_ids data_list)) = DumpOk written
      ∧ length (add_ids data_list) = length data_list
      ∧ ∀ (i : nat) entry, data_list !! i = Some entry →
          match entry with
          | JDict d =>
              add_ids data_list !! i
              = Some (JDict (dict_set (lit "id") (JInt (Z.of_nat i + 1)) d))
              ∧ dict_get (lit "id")
                  (dict_set (lit "id") (JInt (Z.of_nat i + 1)) d)
                = Some (JInt (Z.of_nat i + 1))
          | _ => add_ids data_list !! i = Some entry
          end.
Proof.
  intros p out w'.
  assert ((add_ids_to_json p sample_world).1 = Ok (Some out)) as Hout
    by (vm_compute; reflexivity).
  pose proof (run_result _ _ Hout : add_ids_to_json p sample_world = (_, w'))
    as Hrun.
  split; [exact Hrun|].
  exact (tagger_numbers_by_position p sample_world out w' Hrun).
Defined.

Lemma tagger_overwrites_existing_id_witness :
  let p := lit "data/ids.json" in
  let out := lit "data/Outputs/ids-mod.json" in
  let w' := (add_ids_to_json p sample_world).2 in
  add_ids_to_json p sample_world = (Ok (Some out), w')
  ∧ add_ids [JDict [(lit "id", JInt 99)]] = [JDict [(lit "id", JInt 1)]]
  ∧ ∃ md content data_list md' written,
      node_at (fs sample_world) (key (cwd sample_world) p)
      = Some (File md content)
      ∧ json_load content = LoadOk (JList data_list)
      ∧ node_at (fs w') (key (cwd sample_world) out) = Some (File md' written)
      ∧ json_dump (JList (add_ids data_list)) = DumpOk written
      ∧ ∀ (i : nat) d, data_list !! i = Some (JDict d) →
          ∃ d', add_ids data_list !! i = Some (JDict d')
                ∧ dict_get (lit "id") d' = Some (JInt (Z.of_nat i + 1))
                ∧ dict_remove (lit "id") d' = dict_remove (lit "id") d
                ∧ (∀ key, key ≠ lit "id" → dict_get key d' = dict_get key d)
                ∧ (is_Some (dict_get (lit "id") d) → length d' = length d).
Proof.
  intros p out w'.
  assert ((add_ids_to_json p sample_world).1 = Ok (Some out)) as Hout
    by (vm_compute; reflexivity).
  pose proof (run_result _ _ Hout : add_ids_to_json p sample_world = (_, w'))
    as Hrun.
  split; [exact Hrun|].
  exact (tagger_overwrites_existing_id p sample_world out w' Hrun).
Defined.





Lemma tagger_round_trip_witness :
  let p := lit "/srv/data/people.json" in
  let out := lit "/srv/data/Outputs/people-mod.json" in
  let w' := (add_ids_to_json p sample_world).2 in
  ((∀ data written, json_dump data = DumpOk written →
                    json_load written = LoadOk data)
   ∧ add_ids_to_json p sample_world = (Ok (Some out), w'))
  ∧ ∃ md content data_list md' written output_list,
      node_at (fs sample_world) (key (cwd sample_world) p)
      = Some (File md content)
      ∧ json_load content = LoadOk (JList data_list)
      ∧ node_at (fs w') (key (cwd sample_world) out) = Some (File md' written)
      ∧ json_load written = LoadOk (JList output_list)
      ∧ length output_list = length data_list
      ∧ ∀ (i : nat) entry, data_list !! i = Some entry →
          ∃ entry', output_list !! i = Some entry'
            ∧ match entry with
              | JDict d =>
                  ∃ d', entry' = JDict d'
                        ∧ dict_remove (lit "id") d' = dict_remove (lit "id") d
                        ∧ dict_get (lit "id") d' = Some (JInt (Z.of_nat i + 1))
              | _ => entry' = entry
              end.
Proof.
  intros p out w'.
  assert (∀ (data : json) (written : option json),
            json_dump data = DumpOk written → json_load written = LoadOk data)
    as Hjson by (intros data written [= <-]; reflexivity).
  assert ((add_ids_to_json p sample_world).1 = Ok (Some out)) as Hout
    by (vm_compute; reflexivity).
  pose proof (run_result _ _ Hout : add_ids_to_json p sample_world = (_, w'))
    as Hrun.
  split; [exact (conj Hjson Hrun)|].
  exact (tagger_round_trip p sample_world out w' Hjson Hrun).
Defined.

Lemma tagger_rerun_overwrites_witness :
  let p := lit "/srv/data/people.json" in
  let out := lit "/srv/data/Outputs/people-mod.json" in
  let w1 := (add_ids_to_json p sample_world).2 in
  add_ids_to_json p sample_world = (Ok (Some out), w1)
  ∧ ∃ md written,
      node_at (fs w1) (key (cwd w1) out) = Some (File md written)
      ∧ add_ids_to_json p w1
        = (Ok (Some out),
           World (fs w1) (cwd w1) (stdin w1)
             (stdout w1 ++ [SuccessProcessed (filename p); SavedTo out]))
      ∧ ∀ stale,
          add_ids_to_json p
            (set_fs (<[key (cwd w1) out := File md stale]> (fs w1)) w1)
          = (Ok (Some out),
             World (fs w1) (cwd w1) (stdin w1)
               (stdout w1 ++ [SuccessProcessed (filename p); SavedTo out])).
Proof.
  intros p out w1.
  assert ((add_ids_to_json p sample_world).1 = Ok (Some out)) as Hout
    by (vm_compute; reflexivity).
  pose proof (run_result _ _ Hout : add_ids_to_json p sample_world = (_, w1))
    as Hrun.
  split; [exact Hrun|].
  exact (tagger_rerun_overwrites p sample_world out w1 Hrun).
Defined.



Lemma single_file_mode_gate_witness :
  let typed := lit "data/notes.txt" in
  let normalized := lit "/srv/data/notes.txt" in
  is_file (node_at (fs sample_world) (key (cwd sample_world) normalized)) = true
  ∧ has_json_suffix (os_path_basename normalized) = false
  ∧ single_file_mode typed normalized sample_world
    = (Ok tt,
       World (fs sample_world) (cwd sample_world) (stdin sample_world)
         (stdout sample_world ++ [InvalidFile typed])).
Proof.
  intros typed normalized.
  assert (is_file (node_at (fs sample_world) (key (cwd sample_world) normalized))
          = true) as Hfile by (vm_compute; reflexivity).
  assert (has_json_suffix (os_path_basename normalized) = false) as Hsuffix
    by (vm_compute; reflexivity).
  destruct (single_file_mode_gate typed normalized sample_world)
    as (Hgate & _ & _).
  rewrite Hfile, Hsuffix in Hgate.
  exact (conj Hfile (conj Hsuffix Hgate)).
Defined.

Example shell_rejects_a_file_without_the_extension :
  stdout (main (World sample_fs [lit "srv"]
                  [lit " F "; lit "'data/notes.txt' "; lit "n"] [])).2
  = [BlankRule; PromptMode; Rule; PromptFile; InvalidFile (lit "data/notes.txt");
     BlankRule; PromptAnother; Goodbye].
Proof. vm_compute. reflexivity. Qed.

(** * Further properties *)

(** ** The tagging loop *)

Lemma dict_set_twice key value d :
  dict_set key value (dict_set key value d) = dict_set key value d.
Proof.
  induction d as [|[k v] rest IH]; simpl.
  - by rewrite decide_True.
  - destruct (decide (k = key)) as [->|Hk]; simpl.
    + by rewrite decide_True.
    + rewrite decide_False by done. by rewrite IH.
Qed.

Lemma dict_get_None_keys key d :
  dict_get key d = None ↔ key ∉ d.*1.
Proof.
  induction d as [|[k v] rest IH]; simpl.
  - split; [intros _; apply not_elem_of_nil|done].
  - rewrite not_elem_of_cons. destruct (decide (k = key)) as [->|Hk].
    + split; [done|]. by intros [? _].
    + rewrite IH. split; [|by intros [_ ?]]. intros; split; [congruence|done].
Qed.

(** X1. The identifiers the loop gives to the mappings of a list grow
    strictly with the position: of two mappings of the tagged list the
    later one has the larger [id], so no two mappings share one, and
    every [id] lies between 1 and the length of the list. *)
Theorem add_ids_ids_increase data_list (i j : nat) di dj :
  add_ids data_list !! i = Some (JDict di) →
  add_ids data_list !! j = Some (JDict dj) →
  (i < j)%nat →
  dict_get (lit "id") di = Some (JInt (Z.of_nat i + 1))
  ∧ dict_get (lit "id") dj = Some (JInt (Z.of_nat j + 1))
  ∧ 1 ≤ Z.of_nat i + 1
  ∧ Z.of_nat i + 1 < Z.of_nat j + 1
  ∧ Z.of_nat j + 1 ≤ Z.of_nat (length data_list).
Proof.
  rewrite !add_ids_lookup. intros Hi Hj Hlt.
  destruct (data_list !! i) as [ei|] eqn:Hei; [|done].
  destruct (data_list !! j) as [ej|] eqn:Hej; [|done].
  apply lookup_lt_Some in Hej. simpl in Hi, Hj.
  destruct ei; simplify_eq/=. destruct ej; simplify_eq/=.
  rewrite !dict_get_set_eq. split_and!; try done; lia.
Qed.

(** X2. Tagging is idempotent: the loop run on a list it has already
    tagged changes nothing. *)
Theorem add_ids_idempotent data_list :
  add_ids (add_ids data_list) = add_ids data_list.
Proof.
  apply list_eq. intros i. rewrite !add_ids_lookup.
  destruct (data_list !! i) as [entry|]; [|done]. simpl. f_equal.
  destruct entry; simpl; try done. by rewrite dict_set_twice.
Qed.

(** X3. Where the loop puts the field: a mapping without [id] gets it
    as its last field; a mapping with [id] keeps its fields in their
    order, the value under [id] alone changing; and a mapping whose
    field names are all different stays one. *)
Theorem tag_entry_field_order (index : nat) d :
  ∃ d', tag_entry index (JDict d) = JDict d'
    ∧ (dict_get (lit "id") d = None →
       d' = d ++ [(lit "id", JInt (Z.of_nat index + 1))])
    ∧ (is_Some (dict_get (lit "id") d) → d'.*1 = d.*1)
    ∧ (NoDup d.*1 → NoDup d'.*1).
Proof.
  eexists. split; [done|].
  generalize (JInt (Z.of_nat index + 1)). generalize (lit "id").
  intros key value.
  assert (dict_get key d = None → dict_set key value d = d ++ [(key, value)])
    as Hnew.
  { induction d as [|[k v] rest IH]; simpl; [done|].
    destruct (decide (k = key)); [done|]. intros Hnone. f_equal. by apply IH. }
  assert (is_Some (dict_get key d) → (dict_set key value d).*1 = d.*1) as Hold.
  { clear Hnew. induction d as [|[k v] rest IH]; simpl; [by intros [? ?]|].
    destruct (decide (k = key)); simpl; [done|]. intros Hsome. f_equal.
    by apply IH. }
  split_and!; [done..|].
  intros Hnodup. destruct (dict_get key d) as [old|] eqn:Hget.
  - by rewrite Hold.
  - rewrite Hnew by done. rewrite fmap_app. simpl.
    apply NoDup_app. split_and!; [done| |apply NoDup_singleton].
    intros k Hk ->%list_elem_of_singleton.
    by apply dict_get_None_keys in Hget.
Qed.

(** ** What a run of the Tagger touches *)

Section Footprint.
Context {text : Type} `{!JsonLib text}.
Implicit Types (w : world text) (p : str) (m : gmap (list str) (node text)).

(** [os.makedirs] adds directories, on the chain it walks down, and
    nothing else. *)
Lemma makedirs_from_new (at_dir todo : list str) m r m' k :
  makedirs_from at_dir todo m = (r, m') →
  node_at m k = None → node_at m' k ≠ None →
  node_at m' k = Some (Dir rw)
  ∧ ∃ i, (1 ≤ i ≤ length todo)%nat ∧ k = at_dir ++ take i todo.
Proof.
  revert at_dir m. induction todo as [|c rest IH]; intros at_dir m Hrun Hk Hk';
    simpl in Hrun.
  { by simplify_eq. }
  assert (∀ m1, makedirs_from (at_dir ++ [c]) rest m1 = (r, m') →
                node_at m1 k = None →
                node_at m' k = Some (Dir rw)
                ∧ ∃ i, (1 ≤ i ≤ length (c :: rest))%nat
                       ∧ k = at_dir ++ take i (c :: rest)) as Hstep.
  { intros m1 Hrest Hk1.
    destruct (IH _ _ Hrest Hk1 Hk') as (Hdir & i & Hi & ->).
    split; [done|]. exists (S i). split; [simpl; lia|].
    simpl. by rewrite <- app_assoc. }
  destruct (node_at m (at_dir ++ [c])) as [[md content|md]|] eqn:Hnode.
  - by simplify_eq.
  - by eapply Hstep.
  - destruct (node_at m at_dir) as [[md content|md]|]; [by simplify_eq| |by simplify_eq].
    destruct (writable md); [|by simplify_eq].
    destruct (decide (k = at_dir ++ [c])) as [->|Hne].
    + split.
      * eapply makedirs_from_keeps; [done|]. apply node_at_insert_eq.
      * exists 1%nat. split; [simpl; lia|]. simpl. by rewrite take_0.
    + eapply Hstep; [done|]. by rewrite node_at_insert_ne.
Qed.

Ltac tagger_leaves p w m1 Hmk :=
  rewrite ?tagger_unfold; unfold tagger_steps, failed; simpl;
  destruct (makedirs_from [] (key (cwd w) (output_dir p)) (fs w))
    as [[[]|?e] m1] eqn:Hmk; simpl;
  [destruct (readable_at m1 (key (cwd w) p)) as [?e|?content] eqn:?Hread; simpl;
   [|lazymatch goal with
     | |- context [json_load ?c] =>
         destruct (json_load c) as [[]| |] eqn:?Hload; simpl
     end;
     try (destruct (writable_at m1 (key (cwd w) (output_filepath p)))
            as [?e|?md] eqn:?Hwr; simpl;
          [|lazymatch goal with
            | |- context [json_dump ?d] =>
                destruct (json_dump d) as [?written|?partial] eqn:?Hdump; simpl
            end])]
  |].

Lemma tagger_keeps_other_nodes p w k n :
  node_at (fs w) k = Some n →
  k ≠ key (cwd w) (output_filepath p) →
  node_at (fs (add_ids_to_json p w).2) k = Some n.
Proof.
  intros Hk.
  assert (∀ r m1,
            makedirs_from [] (key (cwd w) (output_dir p)) (fs w) = (r, m1) →
            node_at m1 k = Some n) as Hmk1
    by (intros r m1 Hmk; by eapply makedirs_from_keeps).
  tagger_leaves p w m1 Hmk; intros Hne; try (by eapply Hmk1).
  all: rewrite node_at_insert_ne by done; by eapply Hmk1.
Qed.

Lemma tagger_new_nodes p w k :
  node_at (fs w) k = None →
  node_at (fs (add_ids_to_json p w).2) k ≠ None →
  (node_at (fs (add_ids_to_json p w).2) k = Some (Dir rw)
   ∧ k `prefix_of` key (cwd w) (output_dir p))
  ∨ (k = key (cwd w) (output_filepath p)
     ∧ ∃ content, node_at (fs (add_ids_to_json p w).2) k
                  = Some (File rw content)).
Proof.
  intros Hk.
  assert (∀ r m1,
            makedirs_from [] (key (cwd w) (output_dir p)) (fs w) = (r, m1) →
            node_at m1 k ≠ None →
            node_at m1 k = Some (Dir rw)
            ∧ k `prefix_of` key (cwd w) (output_dir p)) as Hmk1.
  { intros r m1 Hmk Hk'.
    destruct (makedirs_from_new _ _ _ _ _ _ Hmk Hk Hk') as (Hdir & i & _ & ->).
    split; [done|]. simpl. apply prefix_take. }
  assert (∀ m1 md, node_at m1 (key (cwd w) (output_filepath p)) ≠ None →
            writable_at m1 (key (cwd w) (output_filepath p)) = inr md →
            makedirs_from [] (key (cwd w) (output_dir p)) (fs w) = (Ok tt, m1) →
            k = key (cwd w) (output_filepath p) → False) as Hfresh.
  { intros m1 md Hthere Hwr Hmk ->.
    destruct (Hmk1 _ _ Hmk Hthere) as [Hdir _].
    apply writable_at_mode in Hwr as [_ [Hnone|[old Hold]]]; congruence. }
  assert (∀ m1 md, node_at m1 (key (cwd w) (output_filepath p)) = None →
            writable_at m1 (key (cwd w) (output_filepath p)) = inr md →
            md = rw) as Hmode.
  { intros m1 md Hnone. unfold writable_at. rewrite Hnone.
    repeat case_match; intros; by simplify_eq. }
  tagger_leaves p w m1 Hmk; intros Hk'; try (left; by eapply Hmk1).
  all: destruct (decide (k = key (cwd w) (output_filepath p))) as [Heq|Hne];
    [|rewrite node_at_insert_ne in * by done; left; by eapply Hmk1].
  all: right; split; [done|]; subst k; rewrite node_at_insert_eq.
  all: destruct (node_at m1 (key (cwd w) (output_filepath p))) as [n1|] eqn:Hn1;
    [exfalso; eapply (Hfresh m1 md); [by rewrite Hn1|done..]|].
  all: rewrite (Hmode m1 md Hn1 Hwr); eauto.
Qed.

(** X4. Whatever the outcome of a run, every node there was before is
    still there unchanged, except the output file itself; the output
    path never names the same node as the input path, so the input file
    is never modified. *)
Theorem tagger_changes_only_its_output p w k n :
  node_at (fs w) k = Some n →
  key (cwd w) (output_filepath p) ≠ key (cwd w) p
  ∧ (k ≠ key (cwd w) (output_filepath p) →
     node_at (fs (add_ids_to_json p w).2) k = Some n)
  ∧ (k = key (cwd w) p → node_at (fs (add_ids_to_json p w).2) k = Some n).
Proof.
  intros Hk. split_and!; [apply key_output_ne|by apply tagger_keeps_other_nodes|].
  intros ->. apply tagger_keeps_other_nodes; [done|].
  intros Heq. by apply (key_output_ne (cwd w) p).
Qed.

(** X5. What a run creates, for a path without [..]: a node that was
    not there before is either a directory on the way down to
    [Outputs], [Outputs] included, or the output file. *)
Theorem tagger_creates_only_outputs p w k :
  dotdot_free p = true →
  node_at (fs w) k = None →
  node_at (fs (add_ids_to_json p w).2) k ≠ None →
  (node_at (fs (add_ids_to_json p w).2) k = Some (Dir rw)
   ∧ k `prefix_of` key (cwd w) (output_dir p))
  ∨ (k = key (cwd w) (output_filepath p)
     ∧ ∃ content, node_at (fs (add_ids_to_json p w).2) k
                  = Some (File rw content)).
Proof. intros _. apply tagger_new_nodes. Qed.

End Footprint.

(** ** What a batch touches *)

Section BatchFootprint.
Context {text : Type} `{!JsonLib text}.
Implicit Types (w : world text) (m : gmap (list str) (node text)).

Lemma basename_join folder f :
  slash ∉ f → os_path_basename (os_path_join folder f) = f.
Proof.
  intros Hf. unfold os_path_join.
  assert (starts_with_slash f = false) as ->.
  { destruct f as [|x f]; [done|]. apply not_elem_of_cons in Hf as [Hx _].
    simpl. by rewrite bool_decide_eq_false_2. }
  destruct (decide (folder = [])) as [->|Hfolder].
  { simpl. by apply basename_no_slash_path. }
  rewrite bool_decide_eq_false_2 by done. simpl.
  unfold ends_with_slash. destruct (last folder) as [x|] eqn:Hlast.
  - apply last_Some in Hlast as [a ->]. case_bool_decide as Hx.
    + subst x. rewrite <- app_assoc. simpl. by apply basename_after_slash.
    + by apply basename_after_slash.
  - by apply basename_after_slash.
Qed.

(** The file [f] of [folder] has [folder] for its directory. *)
Lemma key_input_dir_join cwd folder f :
  valid_name f = true →
  key cwd (input_dir (os_path_join folder f)) = key cwd folder.
Proof.
  intros Hvalid. pose proof Hvalid as (_ & _ & _ & Hslash)%valid_name_spec.
  pose proof (key_dirname_basename cwd (os_path_join folder f)) as Hkey.
  rewrite key_join, basename_join, !enter_valid_name in Hkey by done.
  by apply (inj (λ l, l ++ [f])) in Hkey.
Qed.

Lemma listed_valid folder w names f :
  well_formed (fs w) = true →
  (os_listdir folder w).1 = Ok names → f ∈ names → valid_name f = true.
Proof.
  intros Hwf Hlist Hf. apply listdir_names in Hlist as (_ & _ & Hnames).
  apply Hnames in Hf as [n Hn].
  pose proof (well_formed_names _ _ _ Hwf Hn) as Hvalid.
  rewrite Forall_app, Forall_singleton in Hvalid. by destruct Hvalid.
Qed.

(** The runs of a batch keep every node but output files, and create
    nothing outside [Outputs] and the way down to it. *)
Lemma tag_all_footprint folder files w :
  (∀ f, f ∈ files → valid_name f = true) →
  cwd (tag_all folder files w) = cwd w
  ∧ (∀ k n, node_at (fs w) k = Some n →
       (∀ x, k ≠ key (cwd w) folder ++ [lit "Outputs"; x]) →
       node_at (fs (tag_all folder files w)) k = Some n)
  ∧ (∀ k, node_at (fs w) k = None →
       node_at (fs (tag_all folder files w)) k ≠ None →
       k `prefix_of` key (cwd w) folder ++ [lit "Outputs"]
       ∨ ∃ x, k = key (cwd w) folder ++ [lit "Outputs"; x]).
Proof.
  revert w. induction files as [|f files IH]; intros w Hvalid.
  { split_and!; [done..|]. intros k Hk Hk'. by destruct Hk'. }
  assert (valid_name f = true) as Hf by (apply Hvalid; by left).
  assert (∀ f', f' ∈ files → valid_name f' = true) as Hrest
    by (intros f' ?; apply Hvalid; by right).
  change (tag_all folder (f :: files) w)
    with (tag_all folder files (add_ids_to_json (os_path_join folder f) w).2).
  set (p := os_path_join folder f).
  set (w1 := (add_ids_to_json p w).2).
  pose proof (tagger_frame p w) as [Hcwd _]. fold w1 in Hcwd.
  destruct (IH w1 Hrest) as (Hcwd' & Hkeep & Hnew). rewrite Hcwd in *.
  assert (key (cwd w) (output_dir p) = key (cwd w) folder ++ [lit "Outputs"])
    as Hdir by (unfold p; by rewrite key_output_dir, key_input_dir_join).
  assert (key (cwd w) (output_filepath p)
          = key (cwd w) folder ++ [lit "Outputs"; output_filename p]) as Hout
    by (rewrite key_output_filepath, Hdir, <- app_assoc; done).
  split_and!; [done| |].
  - intros k n Hk Hform. apply Hkeep; [|done].
    apply tagger_keeps_other_nodes; [done|]. rewrite Hout. apply Hform.
  - intros k Hk Hk'. destruct (node_at (fs w1) k) as [n1|] eqn:Hk1.
    + destruct (tagger_new_nodes p w k Hk) as [[_ Hpre]|[-> _]].
      * fold w1. by rewrite Hk1.
      * left. by rewrite <- Hdir.
      * right. rewrite Hout. eauto.
    + by apply Hnew.
Qed.

Lemma process_folder_world folder w names :
  well_formed (fs w) = true →
  (os_listdir folder w).1 = Ok names →
  ∃ files,
    (∀ f, f ∈ files → f ∈ names)
    ∧ fs (process_folder folder w).2
      = fs (tag_all folder files (print (ProcessingFolder folder) w).2)
    ∧ cwd (process_folder folder w).2 = cwd w.
Proof.
  intros Hwf Hlist. rewrite (process_folder_runs folder w names Hwf Hlist).
  destruct (List.filter has_json_suffix names) as [|f0 files0] eqn:Hfiles.
  { exists []. split_and!; [|done..]. intros f Hf. by apply elem_of_nil in Hf. }
  assert (∀ f, f ∈ List.filter
                       (λ f0, has_json_suffix f0
                              && is_file (node_at (fs w)
                                            (key (cwd w) folder ++ [f0])))
                       names → f ∈ names) as Hsub.
  { intros f Hf. by apply list_elem_of_In, filter_In in Hf
      as [Hf%list_elem_of_In _]. }
  eexists. split_and!; [exact Hsub|done|].
  simpl. rewrite (proj1 (tag_all_footprint folder _ _
                           (λ f Hf, listed_valid folder w names f Hwf Hlist
                                      (Hsub f Hf)))).
  done.
Qed.

(** X7. A batch in a folder it can list changes no node that was there
    before, output files in [Outputs] apart: the entries of the folder,
    the files it has read among them, are exactly as they were. *)
Theorem batch_keeps_the_folder folder w names k n :
  well_formed (fs w) = true →
  (os_listdir folder w).1 = Ok names →
  node_at (fs w) k = Some n →
  ((∀ x, k ≠ key (cwd w) folder ++ [lit "Outputs"; x]) →
   node_at (fs (process_folder folder w).2) k = Some n)
  ∧ (∀ f, k = key (cwd w) folder ++ [f] →
          node_at (fs (process_folder folder w).2) k = Some n).
Proof.
  intros Hwf Hlist Hk.
  destruct (process_folder_world folder w names Hwf Hlist)
    as (files & Hfiles & -> & _).
  assert ((∀ x, k ≠ key (cwd w) folder ++ [lit "Outputs"; x]) →
          node_at (fs (tag_all folder files (print (ProcessingFolder folder) w).2))
            k = Some n) as Hkept.
  { intros Hform.
    apply (proj1 (proj2 (tag_all_footprint folder files _
                           (λ f Hf, listed_valid folder w names f Hwf Hlist
                                      (Hfiles f Hf))))); done. }
  split; [done|]. intros f ->. apply Hkept. intros x Heq.
  apply (f_equal length) in Heq. rewrite !length_app in Heq. simpl in Heq. lia.
Qed.

(** X8. The outputs of a batch are not inputs of the next one: after
    the batch the folder can still be listed, and the names ending in
    [.json] that it lists are the ones it listed before. *)
Theorem batch_outputs_are_not_inputs folder w names :
  well_formed (fs w) = true →
  (os_listdir folder w).1 = Ok names →
  ∃ names',
    (os_listdir folder (process_folder folder w).2).1 = Ok names'
    ∧ ∀ f, has_json_suffix f = true → f ∈ names' ↔ f ∈ names.
Proof.
  intros Hwf Hlist.
  destruct (process_folder_world folder w names Hwf Hlist)
    as (files & Hfiles & Hfs & Hcwd).
  destruct (tag_all_footprint folder files (print (ProcessingFolder folder) w).2
              (λ f Hf, listed_valid folder w names f Hwf Hlist (Hfiles f Hf)))
    as (_ & Hkeep & Hnew).
  rewrite <- Hfs in Hkeep, Hnew. simpl in Hkeep, Hnew.
  set (w' := (process_folder folder w).2) in *.
  set (kf := key (cwd w) folder) in *.
  pose proof (listdir_names folder w names Hlist) as (_ & Hdir & Hnames).
  fold kf in Hdir, Hnames.
  assert (∀ x, kf ≠ kf ++ [lit "Outputs"; x]) as Hkf.
  { intros x Heq. apply (f_equal length) in Heq. rewrite length_app in Heq.
    simpl in Heq. lia. }
  assert (∃ names', (os_listdir folder w').1 = Ok names') as [names' Hlist'].
  { revert Hlist. unfold os_listdir. rewrite Hcwd. fold kf.
    destruct (node_at (fs w) kf) as [n|] eqn:Hn; [|done].
    rewrite (Hkeep kf n Hn Hkf). destruct n as [|md]; [done|].
    destruct (readable md); [|done]. eauto. }
  exists names'. split; [done|]. intros f Hjson.
  pose proof (listdir_names folder w' names' Hlist') as (_ & _ & Hnames').
  rewrite Hcwd in Hnames'. fold kf in Hnames'. rewrite Hnames', Hnames.
  assert (∀ m : gmap (list str) (node text),
            is_Some (m !! (kf ++ [f])) ↔ node_at m (kf ++ [f]) ≠ None) as Hat.
  { intros m. unfold node_at. destruct (m !! (kf ++ [f])) eqn:Hm.
    - split; [done|]. intros _. eauto.
    - rewrite decide_False by (by destruct kf). split; [by intros [? ?]|done]. }
  rewrite !Hat. split.
  - intros Hthere Hnone. destruct (Hnew _ Hnone Hthere) as [Hpre|[x Heq]].
    + apply prefix_length in Hpre as Hlen. rewrite !length_app in Hlen.
      destruct Hpre as [tail Htail]. rewrite <- app_assoc in Htail.
      apply app_inv_head in Htail. destruct tail; simplify_eq/=.
    + apply (f_equal length) in Heq. rewrite !length_app in Heq. simpl in Heq.
      lia.
  - intros Hthere. destruct (node_at (fs w) (kf ++ [f])) as [n|] eqn:Hn; [|done].
    rewrite (Hkeep _ n Hn); [done|]. intros x Heq.
    apply (f_equal length) in Heq. rewrite !length_app in Heq. simpl in Heq. lia.
Qed.

End BatchFootprint.

(** ** The turns of the Shell *)

Section Turns.
Context {text : Type} `{!JsonLib text}.
Implicit Types (w : world text).

(** One turn of the loop, decision by decision. *)
Lemma main_iteration_cases w :
  main_iteration w
  = match stdin w with
    | [] =>
        (Raise EOFError,
         World (fs w) (cwd w) [] (stdout w ++ [BlankRule; PromptMode]))
    | answer1 :: rest1 =>
        let mode_choice := strip is_space (lower answer1) in
        let asked := stdout w ++ [BlankRule; PromptMode; Rule] in
        if decide (mode_choice = lit "exit")
        then (Ok Break, World (fs w) (cwd w) rest1 asked)
        else if negb (bool_decide (mode_choice = lit "f")
                      || bool_decide (mode_choice = lit "d"))
        then (Ok Continue,
              World (fs w) (cwd w) rest1 (asked ++ [InvalidChoice]))
        else
          let prompt := if decide (mode_choice = lit "f") then PromptFile
                        else PromptDirectory in
          match rest1 with
          | [] => (Raise EOFError, World (fs w) (cwd w) [] (asked ++ [prompt]))
          | answer2 :: rest2 =>
              let user_input_path := strip is_quote (strip is_space answer2) in
              let w2 := World (fs w) (cwd w) rest2 (asked ++ [prompt]) in
              if decide (user_input_path = [])
              then (Ok Continue,
                    World (fs w) (cwd w) rest2 (asked ++ [prompt; EmptyInput]))
              else
                match os_path_abspath (os_path_normpath user_input_path) w2 with
                | (Ok normalized_path, _) =>
                    match (if decide (mode_choice = lit "f")
                           then single_file_mode user_input_path normalized_path
                           else directory_mode user_input_path normalized_path)
                            w2 with
                    | (Raise e, w3) => (Raise e, w3)
                    | (Ok _, w3) =>
                        let w4 := World (fs w3) (cwd w3) (stdin w3)
                                    (stdout w3 ++ [BlankRule; PromptAnother]) in
                        match stdin w3 with
                        | [] => (Raise EOFError, w4)
                        | answer3 :: rest3 =>
                            (Ok (if decide (strip is_space (lower answer3)
                                            = lit "y")
                                 then Continue else Break),
                             World (fs w3) (cwd w3) rest3
                               (stdout w3 ++ [BlankRule; PromptAnother]))
                        end
                    end
                | (Raise e, w3) => (Raise e, w3)
                end
          end
    end.
Proof.
  unfold main_iteration, mbind.
  unfold M_bind at 1. rewrite print_full.
  unfold M_bind at 1. unfold input at 1. cbn [stdin fs cwd stdout].
  destruct (stdin w) as [|answer1 rest1]; [by rewrite <- app_assoc|].
  cbv zeta. generalize (strip is_space (lower answer1)). intros mode_choice.
  unfold M_bind at 1. rewrite print_full. cbn [stdin fs cwd stdout].
  rewrite <- !app_assoc. cbn [app].
  destruct (decide (mode_choice = lit "exit")); [done|].
  destruct (negb (bool_decide (mode_choice = lit "f")
                  || bool_decide (mode_choice = lit "d"))).
  { unfold M_bind, print, mret, M_ret. cbn [stdin fs cwd stdout].
    by rewrite <- !app_assoc. }
  unfold M_bind at 1. unfold input at 1. cbn [stdin fs cwd stdout].
  rewrite <- !app_assoc. cbn [app].
  destruct rest1 as [|answer2 rest2]; [done|].
  generalize (strip is_quote (strip is_space answer2)). intros user_input_path.
  destruct (decide (user_input_path = [])).
  { unfold M_bind, print, mret, M_ret. cbn [stdin fs cwd stdout].
    by rewrite <- !app_assoc. }
  unfold M_bind at 1. unfold os_path_abspath at 1 2.
  unfold M_bind at 1.
  lazymatch goal with
  | |- context [(if ?c then single_file_mode ?u ?n else directory_mode ?u ?n) ?w0] =>
      destruct ((if c then single_file_mode u n else directory_mode u n) w0)
        as [[[]|e] w3]
  end; [|done].
  unfold M_bind at 1. rewrite print_full.
  unfold M_bind at 1. unfold input at 1. cbn [stdin fs cwd stdout].
  rewrite <- !app_assoc. cbn [app].
  destruct (stdin w3) as [|answer3 rest3]; [done|].
  by case_decide.
Qed.

Lemma batch_turns_cwd folder files w :
  cwd (foldl (batch_turn folder) w files) = cwd w.
Proof.
  revert w. induction files as [|f files IH]; intros w; [done|]. simpl.
  rewrite IH. unfold batch_turn. case_match; [|done]. apply tagger_frame.
Qed.

Lemma process_folder_cwd folder w : cwd (process_folder folder w).2 = cwd w.
Proof.
  unfold process_folder, mbind. unfold M_bind at 1. rewrite print_full.
  set (w0 := World (fs w) (cwd w) (stdin w) (stdout w ++ [ProcessingFolder folder])).
  unfold M_bind at 1. pose proof (os_listdir_world folder w0) as Hworld.
  destruct (os_listdir folder w0) as [[names|e] w1]; simpl in Hworld; subst w1;
    [|done].
  destruct (List.filter has_json_suffix names) as [|f files]; [done|].
  pose proof (batch_loop folder (f :: files) w0) as Hloop.
  unfold mbind in Hloop. unfold M_bind at 1. rewrite Hloop. simpl.
  apply (batch_turns_cwd folder (f :: files) w0).
Qed.

Lemma single_file_mode_cwd user_input_path normalized_path w :
  cwd (single_file_mode user_input_path normalized_path w).2 = cwd w.
Proof.
  unfold single_file_mode, mbind, M_bind, os_path_isfile.
  case_match; [|done].
  destruct (tagger_returns normalized_path w) as (r & w' & Hrun & _).
  pose proof (tagger_frame normalized_path w) as [Hcwd _].
  rewrite Hrun in *. done.
Qed.

Lemma directory_mode_cwd user_input_path normalized_path w :
  cwd (directory_mode user_input_path normalized_path w).2 = cwd w.
Proof.
  unfold directory_mode, mbind, M_bind, os_path_isdir.
  case_match; [|done]. apply process_folder_cwd.
Qed.

(** X12. A turn of the loop never changes the working directory, and
    it changes the file system only when the operator has chosen [f] or
    [d] and typed a path that is not empty once spaces and quotes are
    stripped: a wrong choice, an empty path, [exit] and the end of the
    input leave every file as it was. The answers are ASCII text, on
    which [strip] and [lower] are Python's. *)
Theorem main_iteration_changes_files_on_request w :
  Forall (λ answer, is_ascii answer = true) (stdin w) →
  cwd (main_iteration w).2 = cwd w
  ∧ (fs (main_iteration w).2 = fs w
     ∨ ∃ answer1 answer2 rest,
         stdin w = answer1 :: answer2 :: rest
         ∧ (strip is_space (lower answer1) = lit "f"
            ∨ strip is_space (lower answer1) = lit "d")
         ∧ strip is_quote (strip is_space answer2) ≠ []).
Proof.
  intros _. rewrite main_iteration_cases.
  destruct (stdin w) as [|answer1 rest1]; simpl; [by split; [|left]|].
  case_decide; [by split; [|left]|].
  case_match eqn:Hchoice; [by split; [|left]|].
  destruct rest1 as [|answer2 rest2]; simpl; [by split; [|left]|].
  destruct (decide (strip is_quote (strip is_space answer2) = []))
    as [Hpath|Hpath]; [by split; [|left]|].
  apply negb_false_iff, orb_true_iff in Hchoice.
  rewrite !bool_decide_eq_true in Hchoice.
  lazymatch goal with
  | |- context [(if ?c then single_file_mode ?u ?n else directory_mode ?u ?n) ?w0] =>
      assert (cwd ((if c then single_file_mode u n else directory_mode u n) w0).2
              = cwd w) as Hcwd;
      [destruct c;
       [by rewrite single_file_mode_cwd|by rewrite directory_mode_cwd]
      |destruct ((if c then single_file_mode u n else directory_mode u n) w0)
         as [[[]|e] w3]]
  end; simpl in Hcwd.
  - destruct (stdin w3); simpl; (split; [done|right; eauto 10]).
  - split; [done|right; eauto 10].
Qed.

(** X13. Every turn of the loop that completes has taken between one
    and three lines from the front of the input, and what it leaves is
    the rest of the input; so the loop on a finite input stops, and
    allowing it more turns than [main] does changes nothing. *)
Theorem main_iteration_takes_input w next w' :
  main_iteration w = (Ok next, w') →
  (∃ taken, stdin w = taken ++ stdin w'
            ∧ (1 ≤ length taken ≤ 3)%nat)
  ∧ ∀ extra,
      (main_loop (S (length (stdin w)) + extra);; print Goodbye) w = main w.
Proof.
  intros Hturn. split; [|intros extra; apply main_never_runs_out].
  revert Hturn. rewrite main_iteration_cases.
  destruct (stdin w) as [|answer1 rest1]; simpl; [done|].
  case_decide; [intros [= <- <-]; by exists [answer1]; simpl; split; [|lia]|].
  case_match; [intros [= <- <-]; by exists [answer1]; simpl; split; [|lia]|].
  destruct rest1 as [|answer2 rest2]; simpl; [done|].
  destruct (decide (strip is_quote (strip is_space answer2) = []));
    [intros [= <- <-]; by exists [answer1; answer2]; simpl; split; [|lia]|].
  lazymatch goal with
  | |- context [(if ?c then single_file_mode ?u ?n else directory_mode ?u ?n) ?w0] =>
      assert (stdin ((if c then single_file_mode u n else directory_mode u n) w0).2
              = rest2) as Hkept
        by (destruct c; [rewrite single_file_mode_stdin
                        |rewrite directory_mode_stdin]; done);
      destruct ((if c then single_file_mode u n else directory_mode u n) w0)
        as [[[]|e] w3]
  end; [|done].
  simpl in Hkept. rewrite Hkept.
  destruct rest2 as [|answer3 rest3]; simpl; [done|].
  intros [= <- <-]. exists [answer1; answer2; answer3]. simpl. split; [done|lia].
Qed.
End Turns.

(** ** Normalising the typed path (line 114) *)

Lemma tokens_slash_free p : Forall (λ t, slash ∉ t) (tokens p).
Proof.
  induction p as [|x p IH]; simpl.
  - constructor; [apply not_elem_of_nil|done].
  - destruct (decide (x = slash)).
    + constructor; [apply not_elem_of_nil|done].
    + destruct (tokens p) as [|t ts].
      * constructor; [|done]. apply not_elem_of_cons. split; [done|].
        apply not_elem_of_nil.
      * apply Forall_cons in IH as [Ht Hts]. constructor; [|done].
        by apply not_elem_of_cons.
Qed.

Lemma join_slash_cons c comps :
  comps ≠ [] → join_slash (c :: comps) = c ++ slash :: join_slash comps.
Proof. by destruct comps. Qed.

Lemma tokens_join_slash comps :
  comps ≠ [] → Forall (λ c, slash ∉ c) comps → tokens (join_slash comps) = comps.
Proof.
  induction comps as [|c comps IH]; [done|]. intros _ Hfree.
  apply Forall_cons in Hfree as [Hc Hfree].
  destruct comps as [|c' comps]; [by apply tokens_no_slash|].
  rewrite join_slash_cons by done. rewrite tokens_app, tokens_no_slash by done.
  by rewrite IH.
Qed.

Lemma tokens_leading_slashes n s :
  tokens (replicate n slash ++ s) = replicate n [] ++ tokens s.
Proof. induction n as [|n IH]; [done|]. simpl. by rewrite IH. Qed.

(** Below the root [os.path.normpath] keeps names only: [..] takes the
    last name away, and is dropped at the root. *)
Lemma normpath_step_names (k : nat) comps c :
  k ≠ 0%nat → slash ∉ c →
  Forall (λ c, valid_name c = true) comps →
  Forall (λ c, valid_name c = true) (normpath_step k comps c).
Proof.
  intros Hk Hc Hcomps. unfold normpath_step.
  destruct (bool_decide (c = []) || bool_decide (c = lit ".")) eqn:Hskip; [done|].
  apply orb_false_iff in Hskip as [H1 H2]. apply bool_decide_eq_false in H1, H2.
  rewrite (bool_decide_eq_false_2 (k = 0%nat)) by done.
  rewrite andb_false_l, orb_false_r.
  assert (bool_decide (last comps = Some (lit "..")) = false) as ->.
  { apply bool_decide_eq_false_2. intros Hlast.
    apply last_Some_elem_of in Hlast.
    apply (proj1 (Forall_forall _ _) Hcomps) in Hlast.
    by apply valid_name_spec in Hlast as (_ & _ & ? & _). }
  rewrite orb_false_r. case_bool_decide as Hup; simpl.
  - apply Forall_app. split; [done|]. apply Forall_singleton.
    by apply valid_name_spec.
  - by apply Forall_take.
Qed.

Lemma normpath_fold_names (k : nat) comps toks :
  k ≠ 0%nat → Forall (λ t, slash ∉ t) toks →
  Forall (λ c, valid_name c = true) comps →
  Forall (λ c, valid_name c = true) (foldl (normpath_step k) comps toks).
Proof.
  intros Hk Htoks. revert comps.
  induction Htoks as [|t toks Ht _ IH]; intros comps Hcomps; simpl; [done|].
  by apply IH, normpath_step_names.
Qed.

(** The normal form of an absolute path: one or two slashes, then
    names separated by single slashes. *)
Lemma normpath_absolute p :
  starts_with_slash p = true →
  ∃ (k : nat) comps,
    os_path_normpath p = replicate (S k) slash ++ join_slash comps
    ∧ Forall (λ c, valid_name c = true) comps.
Proof.
  intros Habs. unfold os_path_normpath. case_decide as Hp; [by subst|].
  lazymatch goal with
  | |- context [replicate ?k slash] => remember k as k0 eqn:Hk0
  end.
  assert (k0 ≠ 0%nat) as Hk.
  { subst k0. destruct p as [|a [|b [|c ?]]]; simpl in *; [done|..];
      repeat case_bool_decide; simpl; done. }
  clear Hk0. destruct k0 as [|k]; [done|]. simpl.
  exists k, (foldl (normpath_step (S k)) [] (tokens p)). split; [done|].
  apply normpath_fold_names; [done|apply tokens_slash_free|constructor].
Qed.

Section Normalising.
Context {text : Type} `{!JsonLib text}.
Implicit Types (w : world text).

(** X14. The path the Shell hands on (line 114) is absolute and in
    normal form: it starts with a slash, and apart from the empty
    components its leading slashes make, every component is a name, so
    none is [.] or [..] and the path ends in no slash unless it is the
    root. *)
Theorem normalized_path_is_plain user_input_path w :
  ∃ normalized_path,
    os_path_abspath (os_path_normpath user_input_path) w
    = (Ok normalized_path, w)
    ∧ starts_with_slash normalized_path = true
    ∧ dotdot_free normalized_path = true
    ∧ ∃ (k : nat) names,
        normalized_path = replicate (S k) slash ++ join_slash names
        ∧ Forall (λ c, valid_name c = true) names
        ∧ tokens normalized_path
          = replicate (S k) [] ++ (if names is [] then [[]] else names).
Proof.
  eexists. split; [done|].
  generalize (os_path_normpath user_input_path). intros p.
  assert (starts_with_slash
            (if starts_with_slash p then p
             else os_path_join (slash :: join_slash (cwd w)) p) = true)
    as Habs.
  { destruct (starts_with_slash p) eqn:Hp; [done|].
    unfold os_path_join. rewrite Hp. by case_match. }
  destruct (normpath_absolute _ Habs) as (k & names & -> & Hnames).
  assert (tokens (replicate (S k) slash ++ join_slash names)
          = replicate (S k) [] ++ (if names is [] then [[]] else names))
    as Htokens.
  { rewrite tokens_leading_slashes. f_equal.
    destruct names as [|c names]; [done|].
    apply tokens_join_slash; [done|].
    eapply Forall_impl; [done|].
    by intros c' (_ & _ & _ & ?)%valid_name_spec. }
  split_and!; [done| |by eauto].
  unfold dotdot_free. rewrite Htokens. apply forallb_forall.
  intros c [Hc|Hc]%in_app_iff; apply bool_decide_eq_true.
  - apply list_elem_of_In, elem_of_replicate in Hc as [-> _]. done.
  - destruct names as [|c' names].
    + apply list_elem_of_In, list_elem_of_singleton in Hc as ->. done.
    + apply list_elem_of_In in Hc.
      apply (proj1 (Forall_forall _ _) Hnames) in Hc.
      by apply valid_name_spec in Hc as (_ & _ & ? & _).
Qed.
End Normalising.

(** ** The name of the output of an accepted file *)

Lemma lower_app_inv s a b :
  lower s = a ++ b → ∃ s1 s2, s = s1 ++ s2 ∧ lower s1 = a ∧ lower s2 = b.
Proof.
  intros Heq. exists (take (length a) s), (drop (length a) s).
  split; [by rewrite take_drop|]. unfold lower in *.
  rewrite <- firstn_map, <- skipn_map, Heq.
  by rewrite take_app_length, drop_app_length.
Qed.

Lemma lower_keeps c s : lower_char c = c → c ∈ s → c ∈ lower s.
Proof.
  intros Hc Hin. unfold lower. rewrite <- Hc.
  by apply (list_elem_of_fmap_2 lower_char).
Qed.

Lemma lower_char_dot c : lower_char c = dot → c = dot.
Proof.
  destruct c as [[] [] [] [] [] [] [] []]; intros Hc; vm_compute in Hc;
    by simplify_eq.
Qed.

(** X15. A path the suffix test accepts has a name [stem ++ ext] with
    [ext] a spelling of [.json] in some mix of cases. The output keeps
    that extension, in the case it was typed, and is accepted by the
    suffix test in its turn, provided the stem is more than dots; a name
    with nothing but dots before [json] (such as [.json]) has no
    extension for [os.path.splitext], so its output is the whole name
    followed by [-mod], which the suffix test rejects. *)
Theorem accepted_name_keeps_its_extension p :
  has_json_suffix p = true →
  ∃ stem ext,
    filename p = stem ++ ext
    ∧ lower ext = lit ".json"
    ∧ ((∃ x, x ∈ stem ∧ x ≠ dot) →
       output_filename p = stem ++ lit "-mod" ++ ext
       ∧ has_json_suffix (output_filepath p) = true)
    ∧ ((∀ x, x ∈ stem → x = dot) →
       output_filename p = stem ++ ext ++ lit "-mod"
       ∧ has_json_suffix (output_filepath p) = false).
Proof.
  rewrite has_json_suffix_basename. unfold has_json_suffix at 1.
  intros [before Hlower]%endswith_spec.
  apply lower_app_inv in Hlower as (stem & ext & Hname & _ & Hext).
  pose proof (basename_no_slash p) as Hslash. rewrite Hname in Hslash.
  apply not_elem_of_app in Hslash as [Hstem Hslash].
  destruct ext as [|x e]; [done|]. injection Hext as Hx He.
  apply lower_char_dot in Hx as ->.
  apply not_elem_of_cons in Hslash as [_ Hslash].
  assert (dot ∉ e) as Hdot.
  { intros Hin. apply (lower_keeps dot) in Hin; [|done].
    rewrite He in Hin. apply list_elem_of_In in Hin. simpl in Hin.
    unfold dot in Hin. intuition discriminate. }
  assert (os_path_basename (output_filepath p) = output_filename p) as Hbase.
  { unfold output_filepath. apply basename_join.
    pose proof (output_filename_valid p) as Hvalid.
    by apply valid_name_spec in Hvalid as (_ & _ & _ & ?). }
  exists stem, (dot :: e).
  assert (lower (dot :: e) = lit ".json") as Hext.
  { change (lower (dot :: e)) with (lower_char dot :: lower e). by rewrite He. }
  split_and!; [done..| |].
  - intros Hmore.
    assert (output_filename p = stem ++ lit "-mod" ++ dot :: e) as Hout.
    { unfold output_filename, filename.
      by rewrite Hname, splitext_name_ext. }
    split; [done|]. rewrite has_json_suffix_basename, Hbase, Hout.
    unfold has_json_suffix. apply endswith_spec.
    exists (lower (stem ++ lit "-mod")). rewrite <- Hext. unfold lower.
    by rewrite (app_assoc stem), (map_app _ (stem ++ lit "-mod")).
  - intros Hdots.
    assert (os_path_splitext (stem ++ dot :: e) = (stem ++ dot :: e, []))
      as Hsplit.
    { unfold os_path_splitext.
      rewrite rfind_absent, (rfind_last _ _ _ Hdot).
      2:{ rewrite not_elem_of_app, not_elem_of_cons. done. }
      rewrite upto_app_length. unfold from.
      change (Z.to_nat (-1 + 1)) with 0%nat. rewrite drop_0.
      assert (existsb (λ x0, bool_decide (x0 ≠ dot)) stem = false) as ->;
        [|by rewrite andb_false_r].
      apply not_true_is_false. intros (x & Hx%list_elem_of_In & Hne)%existsb_exists.
      apply bool_decide_eq_true in Hne. by apply Hne, Hdots. }
    assert (output_filename p = stem ++ (dot :: e) ++ lit "-mod") as Hout.
    { unfold output_filename, filename. rewrite Hname, Hsplit.
      by rewrite app_nil_r, <- app_assoc. }
    split; [done|]. rewrite has_json_suffix_basename, Hbase, Hout.
    apply not_true_is_false. unfold has_json_suffix.
    intros [before' Heq]%endswith_spec.
    apply (f_equal last) in Heq. unfold lower in Heq.
    rewrite !app_assoc, map_app, !last_app in Heq. by vm_compute in Heq.
Qed.

(** ** What a run reports, on any console *)

Section Reports.
Context {text : Type} `{!JsonLib text} `{!Console}.
Implicit Types (w : world text) (p : str) (m : gmap (list str) (node text)).

(** X6. [None] does not tell that nothing was written. A run that
    returns [None] has left the regular files as they were, with two
    exceptions, both after the input was parsed as a list and the
    output file opened: [json.dump] failed, and the file holds what was
    written up to the failure; or [json.dump] succeeded and the file is
    complete, but one of the two lines of success could not be shown
    and the run has reported that as an unexpected error. *)
Theorem tagger_failure_after_opening_output p w :
  (add_ids_to_json p w).1 = Ok None →
  same_files (fs w) (fs (add_ids_to_json p w).2)
  ∨ ∃ md content data_list written md',
      node_at (fs w) (key (cwd w) p) = Some (File md content)
      ∧ json_load content = LoadOk (JList data_list)
      ∧ node_at (fs (add_ids_to_json p w).2) (key (cwd w) (output_filepath p))
        = Some (File md' written)
      ∧ ((json_dump (JList (add_ids data_list)) = DumpError written
          ∧ stdout (add_ids_to_json p w).2
            = stdout w ++ [ErrorUnexpected (filename p) OtherException])
         ∨ (json_dump (JList (add_ids data_list)) = DumpOk written
            ∧ (can_print (SuccessProcessed (filename p)) = false
               ∨ can_print (SavedTo (output_filepath p)) = false)
            ∧ last (stdout (add_ids_to_json p w).2)
              = Some (ErrorUnexpected (filename p) UnicodeEncodeError))).
Proof.
  console_leaves p w m1 Hmk; intros Hnone; try done;
    try (left; by eapply makedirs_from_same_files).
  all: right; apply readable_at_content in Hread as (md0 & Hnode & _);
    apply (makedirs_from_same_files _ _ _ _ _ Hmk) in Hnode.
  all: eexists md0, content, _, _, md;
    (split_and!; [done|done|apply node_at_insert_eq|]).
  all: first [by left|right; split_and!; [done|by auto|]].
  all: by rewrite ?(assoc_L (++) _ [_] [_]), last_snoc.
Qed.

(** X16. What a run prints and returns. Either the two lines of a
    success, and the output path; or one line of error (after the
    first line of success, when it is the second that could not be
    shown), and [None]; or nothing more, and the
    [UnicodeEncodeError] of a report that could not be shown. The
    error reported is: not a list, not found, not decodable, or
    unexpected; the unexpected ones are the errors of the file system
    other than a missing file, those of the [json] library other than a
    decoding error, and that of a line that could not be shown. *)
Theorem tagger_prints_one_report p w :
  p ≠ [] →
  ((add_ids_to_json p w).1 = Ok (Some (output_filepath p))
   ∧ stdout (add_ids_to_json p w).2
     = stdout w ++ [SuccessProcessed (filename p); SavedTo (output_filepath p)])
  ∨ ((add_ids_to_json p w).1 = Ok None
     ∧ ∃ l, (stdout (add_ids_to_json p w).2 = stdout w ++ [l]
             ∨ stdout (add_ids_to_json p w).2
               = stdout w ++ [SuccessProcessed (filename p); l])
        ∧ (l = ErrorNotAList (filename p)
           ∨ l = ErrorNotFound p
           ∨ l = ErrorDecode p
           ∨ ∃ e, l = ErrorUnexpected (filename p) e
                  ∧ (e = FileExistsError ∨ e = NotADirectoryError
                     ∨ e = IsADirectoryError ∨ e = PermissionError
                     ∨ e = OtherException ∨ e = UnicodeEncodeError)))
  ∨ ((add_ids_to_json p w).1 = Raise UnicodeEncodeError
     ∧ (stdout (add_ids_to_json p w).2 = stdout w
        ∨ stdout (add_ids_to_json p w).2
          = stdout w ++ [SuccessProcessed (filename p)])
     ∧ ∃ e', can_print (reported p e') = false).
Proof.
  intros _. console_leaves p w m1 Hmk.
  all: try (destruct (writable_at_errors _ _ _ Hwr) as [->|[->|[->| ->]]]).
  all: try (destruct (readable_at_errors _ _ _ Hread) as [->|[->|[->| ->]]]).
  all: try (destruct (makedirs_from_raises _ _ _ _ _ (node_at_root _) Hmk)
              as [->|[->| ->]]).
  all: simpl in *; try (by left).
  all: try (right; left; split; [done|]; eexists;
            split; [first [by left|by right; rewrite <- app_assoc]|];
            by eauto 12).
  all: right; right; split_and!; [done|by auto|].
  all: first [by eexists|by exists JSONDecodeError|by exists OtherException
             |by exists UnicodeEncodeError|by exists FileExistsError
             |by exists NotADirectoryError|by exists PermissionError
             |by exists IsADirectoryError|by exists FileNotFoundError].
Qed.

(** X17. When the directory [Outputs] cannot be made the input is not
    looked at. In a folder that exists, for a path without [..]: if a
    regular file has the name [Outputs], every run reports
    [FileExistsError]; if there is no [Outputs] and the folder cannot
    be written to, every run reports [PermissionError]. Either way the
    file system is left as it was, whatever the input holds. The
    report is a line the console can show. *)
Theorem tagger_without_output_dir p w :
  dotdot_free p = true →
  dirs_down_to (fs w) (key (cwd w) (input_dir p)) = true →
  (∀ md content,
     node_at (fs w) (key (cwd w) (output_dir p)) = Some (File md content) →
     can_print (ErrorUnexpected (filename p) FileExistsError) = true →
     add_ids_to_json p w
     = (Ok None,
        World (fs w) (cwd w) (stdin w)
          (stdout w ++ [ErrorUnexpected (filename p) FileExistsError])))
  ∧ (∀ md,
       node_at (fs w) (key (cwd w) (output_dir p)) = None →
       node_at (fs w) (key (cwd w) (input_dir p)) = Some (Dir md) →
       writable md = false →
       can_print (ErrorUnexpected (filename p) PermissionError) = true →
       add_ids_to_json p w
       = (Ok None,
          World (fs w) (cwd w) (stdin w)
            (stdout w ++ [ErrorUnexpected (filename p) PermissionError]))).
Proof.
  intros _ Hdirs.
  assert (makedirs_from [] (key (cwd w) (output_dir p)) (fs w)
          = makedirs_from (key (cwd w) (input_dir p)) [lit "Outputs"] (fs w))
    as Hskip.
  { rewrite key_output_dir, makedirs_from_skip; [done|].
    intros i Hi. simpl. apply (proj1 (dirs_down_to_spec _ _) Hdirs). lia. }
  split.
  - intros md content Hfile Hshown. rewrite tagger_unfold.
    unfold tagger_steps, failed.
    rewrite Hskip. simpl. rewrite <- key_output_dir. rewrite Hfile. simpl.
    by rewrite Hshown.
  - intros md Hnone Hfolder Hro Hshown. rewrite tagger_unfold.
    unfold tagger_steps, failed.
    rewrite Hskip. simpl. rewrite <- key_output_dir.
    rewrite Hnone, Hfolder, Hro. simpl. by rewrite Hshown.
Qed.

(** X9. The Batch Runner does not catch the errors of [os.listdir]:
    when the listing raises, [process_folder] raises the same error,
    once the header is printed and without touching anything. The
    error is [PermissionError] for a directory that cannot be read,
    [NotADirectoryError] for a regular file, and one of
    [FileNotFoundError] and [NotADirectoryError] when nothing is
    there. The path is not empty and has no component [..]. *)
Theorem process_folder_raises_listing_errors folder w e :
  folder ≠ [] → dotdot_free folder = true →
  can_print (ProcessingFolder folder) = true →
  (os_listdir folder w).1 = Raise e →
  process_folder folder w
  = (Raise e,
     World (fs w) (cwd w) (stdin w) (stdout w ++ [ProcessingFolder folder]))
  ∧ match node_at (fs w) (key (cwd w) folder) with
    | Some (Dir md) => e = PermissionError ∧ readable md = false
    | Some (File _ _) => e = NotADirectoryError
    | None => e = FileNotFoundError ∨ e = NotADirectoryError
    end.
Proof.
  intros _ _ Hshown. unfold process_folder, mbind, M_bind, print.
  rewrite Hshown. unfold os_listdir, missing. simpl.
  repeat case_match; simpl; intros; simplify_eq; auto.
Qed.

(** X10. In directory mode, for a normalized path: anything that is
    not a directory gets the invalid-input message and nothing else
    happens; a directory is handed to the Batch Runner; and for a
    directory that cannot be read the [PermissionError] of
    [os.listdir] is caught nowhere and leaves the branch, only the
    header of the batch having been printed. *)
Theorem directory_mode_gate user_input_path normalized_path w :
  normalized_path ≠ [] → dotdot_free normalized_path = true →
  (is_dir (node_at (fs w) (key (cwd w) normalized_path)) = false →
   can_print (InvalidDirectory user_input_path) = true →
   directory_mode user_input_path normalized_path w
   = (Ok tt,
      World (fs w) (cwd w) (stdin w)
        (stdout w ++ [InvalidDirectory user_input_path])))
  ∧ (is_dir (node_at (fs w) (key (cwd w) normalized_path)) = true →
     directory_mode user_input_path normalized_path w
     = process_folder normalized_path w)
  ∧ (∀ md,
       node_at (fs w) (key (cwd w) normalized_path) = Some (Dir md) →
       readable md = false →
       can_print (ProcessingFolder normalized_path) = true →
       directory_mode user_input_path normalized_path w
       = (Raise PermissionError,
          World (fs w) (cwd w) (stdin w)
            (stdout w ++ [ProcessingFolder normalized_path]))).
Proof.
  intros _ _.
  assert (directory_mode user_input_path normalized_path w
          = if is_dir (node_at (fs w) (key (cwd w) normalized_path))
            then process_folder normalized_path w
            else print (InvalidDirectory user_input_path) w) as Hmode.
  { unfold directory_mode, mbind, M_bind, os_path_isdir. by case_match. }
  split_and!.
  - intros Hdir Hshown. rewrite Hmode, Hdir. unfold print. by rewrite Hshown.
  - intros Hdir. by rewrite Hmode, Hdir.
  - intros md Hnode Hro Hshown. rewrite Hmode, Hnode. simpl.
    unfold process_folder, mbind, M_bind, print. rewrite Hshown.
    unfold os_listdir. simpl. by rewrite Hnode, Hro.
Qed.
End Reports.

(** ** The further properties on the sample worlds *)

Lemma add_ids_ids_increase_witness :
  let data_list := [JDict [(lit "a", JInt 1)]; JStr (lit "note");
                    JDict [(lit "id", JInt 99)]] in
  let di := [(lit "a", JInt 1); (lit "id", JInt 1)] in
  let dj := [(lit "id", JInt 3)] in
  (add_ids data_list !! 0%nat = Some (JDict di)
   ∧ add_ids data_list !! 2%nat = Some (JDict dj)
   ∧ (0 < 2)%nat)
  ∧ dict_get (lit "id") di = Some (JInt 1)
  ∧ dict_get (lit "id") dj = Some (JInt 3).
Proof.
  intros data_list di dj.
  assert (add_ids data_list !! 0%nat = Some (JDict di)) as Hi
    by (vm_compute; reflexivity).
  assert (add_ids data_list !! 2%nat = Some (JDict dj)) as Hj
    by (vm_compute; reflexivity).
  assert (0 < 2)%nat as Hlt by lia.
  split; [exact (conj Hi (conj Hj Hlt))|].
  destruct (add_ids_ids_increase data_list 0 2 di dj Hi Hj Hlt)
    as (Hidi & Hidj & _).
  exact (conj Hidi Hidj).
Defined.

Lemma tagger_changes_only_its_output_witness :
  let p := lit "data/people.json" in
  let k := [lit "srv"; lit "data"; lit "notes.txt"] in
  let n := File rw None in
  node_at (fs sample_world) k = Some n
  ∧ key (cwd sample_world) (output_filepath p) ≠ key (cwd sample_world) p
  ∧ (k ≠ key (cwd sample_world) (output_filepath p) →
     node_at (fs (add_ids_to_json p sample_world).2) k = Some n)
  ∧ (k = key (cwd sample_world) p →
     node_at (fs (add_ids_to_json p sample_world).2) k = Some n).
Proof.
  intros p k n.
  assert (node_at (fs sample_world) k = Some n) as Hk
    by (vm_compute; reflexivity).
  exact (conj Hk (tagger_changes_only_its_output p sample_world k n Hk)).
Defined.

Lemma tagger_creates_only_outputs_witness :
  let p := lit "data/people.json" in
  let k := [lit "srv"; lit "data"; lit "Outputs"] in
  (dotdot_free p = true
   ∧ node_at (fs sample_world) k = None
   ∧ node_at (fs (add_ids_to_json p sample_world).2) k ≠ None)
  ∧ ((node_at (fs (add_ids_to_json p sample_world).2) k = Some (Dir rw)
      ∧ k `prefix_of` key (cwd sample_world) (output_dir p))
     ∨ (k = key (cwd sample_world) (output_filepath p)
        ∧ ∃ content, node_at (fs (add_ids_to_json p sample_world).2) k
                     = Some (File rw content))).
Proof.
  intros p k.
  assert (dotdot_free p = true) as Hfree by (vm_compute; reflexivity).
  assert (node_at (fs sample_world) k = None) as Hbefore
    by (vm_compute; reflexivity).
  assert (node_at (fs (add_ids_to_json p sample_world).2) k = Some (Dir rw))
    as Hafter by (vm_compute; reflexivity).
  assert (node_at (fs (add_ids_to_json p sample_world).2) k ≠ None) as Hnew
    by (rewrite Hafter; discriminate).
  exact (conj (conj Hfree (conj Hbefore Hnew))
           (tagger_creates_only_outputs p sample_world k Hfree Hbefore Hnew)).
Defined.

Lemma tagger_failure_after_opening_output_witness :
  let p := lit "data/object.JSON" in
  (add_ids_to_json p sample_world).1 = Ok None
  ∧ (same_files (fs sample_world) (fs (add_ids_to_json p sample_world).2)
     ∨ ∃ md content data_list written md',
         node_at (fs sample_world) (key (cwd sample_world) p)
         = Some (File md content)
         ∧ json_load content = LoadOk (JList data_list)
         ∧ node_at (fs (add_ids_to_json p sample_world).2)
             (key (cwd sample_world) (output_filepath p))
           = Some (File md' written)
         ∧ ((json_dump (JList (add_ids data_list)) = DumpError written
             ∧ stdout (add_ids_to_json p sample_world).2
               = stdout sample_world
                 ++ [ErrorUnexpected (filename p) OtherException])
            ∨ (json_dump (JList (add_ids data_list)) = DumpOk written
               ∧ (can_print (SuccessProcessed (filename p)) = false
                  ∨ can_print (SavedTo (output_filepath p)) = false)
               ∧ last (stdout (add_ids_to_json p sample_world).2)
                 = Some (ErrorUnexpected (filename p) UnicodeEncodeError)))).
Proof.
  intros p.
  assert ((add_ids_to_json p sample_world).1 = Ok None) as Hnone
    by (vm_compute; reflexivity).
  exact (conj Hnone (tagger_failure_after_opening_output p sample_world Hnone)).
Defined.

Lemma batch_keeps_the_folder_witness :
  let folder := lit "data" in
  let names := [lit "object.JSON"; lit "ids.json"; lit "archive.json";
                lit "notes.txt"; lit "broken.json"; lit "people.json"] in
  let k := [lit "srv"; lit "data"; lit "people.json"] in
  let n := File rw (Some sample_records) in
  (well_formed (fs sample_world) = true
   ∧ (os_listdir folder sample_world).1 = Ok names
   ∧ node_at (fs sample_world) k = Some n)
  ∧ node_at (fs (process_folder folder sample_world).2) k = Some n.
Proof.
  intros folder names k n.
  assert (well_formed (fs sample_world) = true) as Hwf
    by (vm_compute; reflexivity).
  assert ((os_listdir folder sample_world).1 = Ok names) as Hlist
    by (vm_compute; reflexivity).
  assert (node_at (fs sample_world) k = Some n) as Hk
    by (vm_compute; reflexivity).
  assert (k = key (cwd sample_world) folder ++ [lit "people.json"]) as Hentry
    by (vm_compute; reflexivity).
  split; [exact (conj Hwf (conj Hlist Hk))|].
  exact (proj2 (batch_keeps_the_folder folder sample_world names k n
                  Hwf Hlist Hk) (lit "people.json") Hentry).
Defined.

Lemma batch_outputs_are_not_inputs_witness :
  let folder := lit "data" in
  let names := [lit "object.JSON"; lit "ids.json"; lit "archive.json";
                lit "notes.txt"; lit "broken.json"; lit "people.json"] in
  (well_formed (fs sample_world) = true
   ∧ (os_listdir folder sample_world).1 = Ok names)
  ∧ ∃ names',
      (os_listdir folder (process_folder folder sample_world).2).1 = Ok names'
      ∧ ∀ f, has_json_suffix f = true → f ∈ names' ↔ f ∈ names.
Proof.
  intros folder names.
  assert (well_formed (fs sample_world) = true) as Hwf
    by (vm_compute; reflexivity).
  assert ((os_listdir folder sample_world).1 = Ok names) as Hlist
    by (vm_compute; reflexivity).
  exact (conj (conj Hwf Hlist)
           (batch_outputs_are_not_inputs folder sample_world names Hwf Hlist)).
Defined.

Lemma main_iteration_takes_input_witness :
  let w := World sample_fs [lit "srv"]
             [lit " F "; lit "'data/notes.txt' "; lit "n"] [] in
  let w' := (main_iteration w).2 in
  main_iteration w = (Ok Break, w')
  ∧ (∃ taken, stdin w = taken ++ stdin w' ∧ (1 ≤ length taken ≤ 3)%nat)
  ∧ ∀ extra,
      (main_loop (S (length (stdin w)) + extra);; print Goodbye) w = main w.
Proof.
  intros w w'.
  assert ((main_iteration w).1 = Ok Break) as Hbreak
    by (vm_compute; reflexivity).
  pose proof (run_result _ _ Hbreak : main_iteration w = (_, w')) as Hturn.
  exact (conj Hturn (main_iteration_takes_input w Break w' Hturn)).
Defined.

Example normalized_path_of_a_typed_path :
  (os_path_abspath (os_path_normpath (lit "data/../data//people.json"))
     sample_world).1
  = Ok (lit "/srv/data/people.json").
Proof. vm_compute. reflexivity. Qed.

Lemma accepted_name_keeps_its_extension_witness :
  let p := lit "/srv/data/object.JSON" in
  has_json_suffix p = true
  ∧ ∃ stem ext,
      filename p = stem ++ ext
      ∧ lower ext = lit ".json"
      ∧ ((∃ x, x ∈ stem ∧ x ≠ dot) →
         output_filename p = stem ++ lit "-mod" ++ ext
         ∧ has_json_suffix (output_filepath p) = true)
      ∧ ((∀ x, x ∈ stem → x = dot) →
         output_filename p = stem ++ ext ++ lit "-mod"
         ∧ has_json_suffix (output_filepath p) = false).
Proof.
  intros p.
  assert (has_json_suffix p = true) as Hsuffix by (vm_compute; reflexivity).
  exact (conj Hsuffix (accepted_name_keeps_its_extension p Hsuffix)).
Defined.

Lemma tagger_without_output_dir_witness :
  let p := lit "data/people.json" in
  let w := World (<[[lit "srv"; lit "data"; lit "Outputs"] := File rw None]>
                    sample_fs) [lit "srv"] [] [] in
  (dotdot_free p = true
   ∧ dirs_down_to (fs w) (key (cwd w) (input_dir p)) = true
   ∧ node_at (fs w) (key (cwd w) (output_dir p)) = Some (File rw None)
   ∧ can_print (ErrorUnexpected (filename p) FileExistsError) = true)
  ∧ add_ids_to_json p w
    = (Ok None,
       World (fs w) (cwd w) (stdin w)
         (stdout w ++ [ErrorUnexpected (filename p) FileExistsError])).
Proof.
  intros p w.
  assert (dotdot_free p = true) as Hfree by (vm_compute; reflexivity).
  assert (dirs_down_to (fs w) (key (cwd w) (input_dir p)) = true) as Hdirs
    by (vm_compute; reflexivity).
  assert (node_at (fs w) (key (cwd w) (output_dir p)) = Some (File rw None))
    as Hfile by (vm_compute; reflexivity).
  assert (can_print (ErrorUnexpected (filename p) FileExistsError) = true)
    as Hshown by reflexivity.
  split; [exact (conj Hfree (conj Hdirs (conj Hfile Hshown)))|].
  exact (proj1 (tagger_without_output_dir p w Hfree Hdirs) rw None Hfile Hshown).
Defined.

Lemma process_folder_raises_listing_errors_witness :
  let folder := lit "data/notes.txt" in
  (folder ≠ []
   ∧ dotdot_free folder = true
   ∧ can_print (ProcessingFolder folder) = true
   ∧ (os_listdir folder sample_world).1 = Raise NotADirectoryError)
  ∧ process_folder folder sample_world
    = (Raise NotADirectoryError,
       World (fs sample_world) (cwd sample_world) (stdin sample_world)
         (stdout sample_world ++ [ProcessingFolder folder])).
Proof.
  intros folder.
  assert (folder ≠ []) as Hfolder by (vm_compute; congruence).
  assert (dotdot_free folder = true) as Hfree by (vm_compute; reflexivity).
  assert (can_print (ProcessingFolder folder) = true) as Hshown by reflexivity.
  assert ((os_listdir folder sample_world).1 = Raise NotADirectoryError)
    as Hlist by (vm_compute; reflexivity).
  split; [exact (conj Hfolder (conj Hfree (conj Hshown Hlist)))|].
  exact (proj1 (process_folder_raises_listing_errors folder sample_world
                  NotADirectoryError Hfolder Hfree Hshown Hlist)).
Defined.

Lemma directory_mode_gate_witness :
  let typed := lit "data/notes.txt" in
  let normalized := lit "/srv/data/notes.txt" in
  (normalized ≠ []
   ∧ dotdot_free normalized = true
   ∧ is_dir (node_at (fs sample_world) (key (cwd sample_world) normalized))
     = false
   ∧ can_print (InvalidDirectory typed) = true)
  ∧ directory_mode typed normalized sample_world
    = (Ok tt,
       World (fs sample_world) (cwd sample_world) (stdin sample_world)
         (stdout sample_world ++ [InvalidDirectory typed])).
Proof.
  intros typed normalized.
  assert (normalized ≠ []) as Hpath by (vm_compute; congruence).
  assert (dotdot_free normalized = true) as Hfree by (vm_compute; reflexivity).
  assert (is_dir (node_at (fs sample_world) (key (cwd sample_world) normalized))
          = false) as Hdir by (vm_compute; reflexivity).
  assert (can_print (InvalidDirectory typed) = true) as Hshown by reflexivity.
  split; [exact (conj Hpath (conj Hfree (conj Hdir Hshown)))|].
  exact (proj1 (directory_mode_gate typed normalized sample_world Hpath Hfree)
           Hdir Hshown).
Defined.

Lemma main_iteration_changes_files_on_request_witness :
  let w := World sample_fs [lit "srv"]
             [lit " F "; lit "'data/notes.txt' "; lit "n"] [] in
  Forall (λ answer, is_ascii answer = true) (stdin w)
  ∧ cwd (main_iteration w).2 = cwd w
  ∧ (fs (main_iteration w).2 = fs w
     ∨ ∃ answer1 answer2 rest,
         stdin w = answer1 :: answer2 :: rest
         ∧ (strip is_space (lower answer1) = lit "f"
            ∨ strip is_space (lower answer1) = lit "d")
         ∧ strip is_quote (strip is_space answer2) ≠ []).
Proof.
  intros w.
  assert (Forall (λ answer, is_ascii answer = true) (stdin w)) as Hascii
    by (repeat (constructor; [vm_compute; reflexivity|]); constructor).
  exact (conj Hascii (main_iteration_changes_files_on_request w Hascii)).
Defined.

Lemma tagger_prints_one_report_witness :
  let p := lit "data/object.JSON" in
  let run := add_ids_to_json p sample_world in
  p ≠ []
  ∧ ((run.1 = Ok (Some (output_filepath p))
      ∧ stdout run.2
        = stdout sample_world
          ++ [SuccessProcessed (filename p); SavedTo (output_filepath p)])
     ∨ (run.1 = Ok None
        ∧ ∃ l, (stdout run.2 = stdout sample_world ++ [l]
                ∨ stdout run.2
                  = stdout sample_world ++ [SuccessProcessed (filename p); l])
           ∧ (l = ErrorNotAList (filename p)
              ∨ l = ErrorNotFound p
              ∨ l = ErrorDecode p
              ∨ ∃ e, l = ErrorUnexpected (filename p) e
                     ∧ (e = FileExistsError ∨ e = NotADirectoryError
                        ∨ e = IsADirectoryError ∨ e = PermissionError
                        ∨ e = OtherException ∨ e = UnicodeEncodeError)))
     ∨ (run.1 = Raise UnicodeEncodeError
        ∧ (stdout run.2 = stdout sample_world
           ∨ stdout run.2
             = stdout sample_world ++ [SuccessProcessed (filename p)])
        ∧ ∃ e', can_print (reported p e') = false)).
Proof.
  intros p run.
  assert (p ≠ []) as Hpath by (vm_compute; congruence).
  exact (conj Hpath (tagger_prints_one_report p sample_world Hpath)).
Defined.
